(** * aquarium_tutorial: the label, split and report logic of [train.py]

    A shallow embedding of the parts of [src/train.py] that are the
    script's own logic: the label extractor (lines 75-83), the call of
    the dataset splitter (lines 93-95), the epoch length (line 116), the
    confusion matrix (lines 124-127) and the report of wrongly
    classified pictures (lines 133-147).

    The script is glue around [pathlib], [str], [dict], [set],
    scikit-learn, pandas and keras.  Each library function it calls is
    modelled by what that function is documented to do, in a module
    named after the library; exceptions become the [raise] case of an
    error monad. *)

From Stdlib Require Import ZArith QArith Qround Ascii String Lia.
From stdpp Require Import base numbers list strings gmap sets pretty.

Close Scope Q_scope.
Local Open Scope nat_scope.

(** ** Exceptions *)

Inductive exn : Type :=
  | UnboundLocalError (var : string)
  | KeyError (key : string)
  | IndexError
  | ValueError (msg : string).

Inductive result (A : Type) : Type :=
  | ok (a : A)
  | raise (e : exn).
Arguments ok {A} a.
Arguments raise {A} e.

#[global] Instance result_ret : MRet result := fun _ a => ok a.
#[global] Instance result_bind : MBind result := fun _ _ f m =>
  match m with ok a => f a | raise e => raise e end.
#[global] Instance result_fmap : FMap result := fun _ _ f m =>
  match m with ok a => ok (f a) | raise e => raise e end.

Definition is_ok {A} (m : result A) : bool :=
  match m with ok _ => true | raise _ => false end.

(** ** Python sequences and strings *)

Module Py.

(** [xs[i]] on a list, with Python's negative indices. *)
Definition getitem {A} (xs : list A) (i : Z) : result A :=
  let n := Z.of_nat (length xs) in
  let j := if (i <? 0)%Z then (i + n)%Z else i in
  if (j <? 0)%Z then raise IndexError
  else match xs !! Z.to_nat j with
       | Some x => ok x
       | None => raise IndexError
       end.

(** [c in s] for a one-character [c]. *)
Fixpoint contains (c : ascii) (s : string) : bool :=
  match s with
  | EmptyString => false
  | String a s' => if Ascii.eqb a c then true else contains c s'
  end.

(** [s.split(sep)] for a one-character separator: the result is never
    empty, and [n] separators give [n + 1] fields. *)
Fixpoint split (sep : ascii) (s : string) : list string :=
  match s with
  | EmptyString => [EmptyString]
  | String a s' =>
      if Ascii.eqb a sep then EmptyString :: split sep s'
      else match split sep s' with
           | field :: fields => String a field :: fields
           | [] => [String a EmptyString]
           end
  end.

(** [s.startswith(c)] and [s.endswith(c)] for a one-character [c]. *)
Definition startswith (c : ascii) (s : string) : bool :=
  match s with
  | String a _ => Ascii.eqb a c
  | EmptyString => false
  end.

Fixpoint endswith (c : ascii) (s : string) : bool :=
  match s with
  | EmptyString => false
  | String a EmptyString => Ascii.eqb a c
  | String _ s' => endswith c s'
  end.

(** [enumerate(xs)] *)
Definition enumerate {A} (xs : list A) : list (nat * A) :=
  zip (seq 0 (length xs)) xs.

End Py.

(** ** Python dictionaries

    A [dict] keeps its keys in insertion order, and assigning to a key
    that is present keeps the key's place: an association list without
    repeated keys. *)

Module PyDict.
Section Dict.
Context {K V : Type} `{EqDecision K}.

Definition dict : Type := list (K * V).

Definition empty : dict := [].

Fixpoint setitem (k : K) (v : V) (d : dict) : dict :=
  match d with
  | [] => [(k, v)]
  | (k', v') :: d' =>
      if decide (k' = k) then (k', v) :: d'
      else (k', v') :: setitem k v d'
  end.

Fixpoint get (k : K) (d : dict) : option V :=
  match d with
  | [] => None
  | (k', v') :: d' => if decide (k' = k) then Some v' else get k d'
  end.

Definition keys (d : dict) : list K := d.*1.
Definition values (d : dict) : list V := d.*2.
Definition items (d : dict) : list (K * V) := d.
Definition len (d : dict) : nat := length d.
End Dict.
Arguments dict K V : clear implicits.
End PyDict.

(** ** pathlib

    A pure POSIX path: its root and the components after it.  The
    constructor drops empty components and [.] components and keeps
    [..]; [name] is the last component, the empty string when there is
    none; [parent] drops the last component and leaves a path without
    components as it is. *)

Module pathlib.

Record PurePath : Type := mkPath { root : string; parts : list string }.

Definition parse_root (s : string) : string :=
  match s with
  | String "/" (String "/" (String "/" _)) => "/"
  | String "/" (String "/" _) => "//"
  | String "/" _ => "/"
  | _ => EmptyString
  end.

Definition is_component (c : string) : bool :=
  negb (String.eqb c EmptyString) && negb (String.eqb c ".").

Definition Path (s : string) : PurePath :=
  {| root := parse_root s;
     parts := List.filter is_component (Py.split "/" s) |}.

Definition name (p : PurePath) : string :=
  match last (parts p) with
  | Some c => c
  | None => EmptyString
  end.

Definition parent (p : PurePath) : PurePath :=
  {| root := root p; parts := removelast (parts p) |}.

End pathlib.

(** ** The label extractor (train.py, lines 75-83) *)

(** Line 76, one element of the comprehension:
    [pathlib.Path(path).parent.name]. *)
Definition mnist_label (path : string) : string :=
  pathlib.name (pathlib.parent (pathlib.Path path)).

(** Line 79, on a file name:
    [name.split(".")[0].split("_")[-1]]. *)
Definition label_of_name (name : string) : result string :=
  stem ← Py.getitem (Py.split "." name) 0;
  Py.getitem (Py.split "_" stem) (-1).

(** Line 79, one element of the comprehension. *)
Definition chinese_label (path : string) : result string :=
  label_of_name (pathlib.name (pathlib.Path path)).

(** Lines 75-80.  The local [all_labels] is bound in the two branches
    only; with any other [input_type] the read of it on line 81 raises
    [UnboundLocalError]. *)
Definition extract_labels (input_type : string) (all_image_paths : list string)
  : result (list string) :=
  if String.eqb input_type "mnist" then
    ok (mnist_label <$> all_image_paths)
  else if String.eqb input_type "chinese" then
    mapM chinese_label all_image_paths
  else
    raise (UnboundLocalError "all_labels").

(** Line 81, [labels = list(set(all_labels))]: the distinct labels, in
    the order in which the set happens to iterate.  The order is not
    fixed by the language, so it is kept open: [labels] is any listing
    of the set. *)
Definition set_listing (all_labels labels : list string) : Prop :=
  labels ≡ₚ elements (list_to_set all_labels : gset string).

(** Line 82, [{label: idx for idx, label in enumerate(labels)}]. *)
Definition make_label_index (labels : list string) : PyDict.dict string nat :=
  foldl (λ d '(idx, label), PyDict.setitem label idx d)
        PyDict.empty (Py.enumerate labels).

(** [label_index[label]] *)
Definition lookup_label (label_index : PyDict.dict string nat) (label : string)
  : result nat :=
  match PyDict.get label label_index with
  | Some idx => ok idx
  | None => raise (KeyError label)
  end.

(** Line 83, [[label_index[label] for label in all_labels]]. *)
Definition encode_labels (label_index : PyDict.dict string nat)
    (all_labels : list string) : result (list nat) :=
  mapM (lookup_label label_index) all_labels.

(** Lines 75-83 together; [labels] is the listing chosen on line 81. *)
Definition label_stage (input_type : string) (all_image_paths : list string)
    (labels : list string) : result (PyDict.dict string nat * list nat) :=
  all_labels ← extract_labels input_type all_image_paths;
  let label_index := make_label_index labels in
  codes ← encode_labels label_index all_labels;
  mret (label_index, codes).

(** ** numpy *)

(** The random generator behind [numpy.random]: a state, seeding
    ([RandomState(seed)]) and [permutation(n)], which returns a shuffled
    [range(n)] and advances the state.  The generator itself (a Mersenne
    twister) is not part of the script and is left abstract. *)
Class RNG : Type := {
  rng_state : Type;
  RandomState : Z → rng_state;
  permutation : rng_state → nat → list nat * rng_state
}.

(** What [permutation] is documented to return. *)
Definition rng_lawful (G : RNG) : Prop :=
  ∀ (s : rng_state) (n : nat), (permutation s n).1 ≡ₚ seq 0 n.

Module np.

(** [a[ind]] with an index array: the elements at those positions. *)
Definition take_indices {A} (a : list A) (ind : list nat) : result (list A) :=
  mapM (λ i, match a !! i with
             | Some x => ok x
             | None => raise IndexError
             end) ind.

(** [a[i]] with a non-negative index. *)
Definition item {A} (a : list A) (i : nat) : result A :=
  match a !! i with
  | Some x => ok x
  | None => raise IndexError
  end.

(** [a[i : j]]: never fails. *)
Definition slice {A} (a : list A) (i j : nat) : list A :=
  take (j - i) (drop i a).

(** [np.argmax] on one row: the first position of the largest entry.
    Scores are exact rationals standing for the finite floats of a
    softmax output. *)
Fixpoint argmax_from (best : Q) (best_i i : nat) (row : list Q) : nat :=
  match row with
  | [] => best_i
  | x :: row' =>
      if Qle_bool x best then argmax_from best best_i (S i) row'
      else argmax_from x i (S i) row'
  end.

Definition argmax (row : list Q) : result nat :=
  match row with
  | [] => raise (ValueError "attempt to get argmax of an empty sequence")
  | x :: row' => ok (argmax_from x 0 1 row')
  end.

(** [np.argmax(a, axis=-1)] on a two-dimensional array. *)
Definition argmax_rows (a : list (list Q)) : result (list nat) :=
  mapM argmax a.

End np.

(** ** scikit-learn *)

Module sklearn.

(** [_validate_shuffle_split] with a float [test_size] and no
    [train_size]: [n_test = ceil(test_size * n_samples)], the rest is
    the train set, and an empty train set is refused.  The product is
    taken over the rationals; for [test_size = 0.33] the double
    product has the same ceiling for every sample count below 2^40. *)
Definition validate_shuffle_split (n_samples : nat) (test_size : Q)
  : result (nat * nat) :=
  if Qle_bool test_size 0 || Qle_bool 1 test_size then
    raise (ValueError "test_size should be in the (0, 1) range")
  else
    let n_test := Z.to_nat (Qceiling (test_size * inject_Z (Z.of_nat n_samples))) in
    let n_train := n_samples - n_test in
    if n_train =? 0 then
      raise (ValueError "the resulting train set will be empty")
    else ok (n_train, n_test).

Section Split.
Context {G : RNG}.

(** [check_random_state]: an integer seeds a fresh generator, [None]
    is the process-wide generator. *)
Definition check_random_state (random_state : option Z)
    (global : rng_state) : rng_state :=
  match random_state with
  | Some seed => RandomState seed
  | None => global
  end.

(** [ShuffleSplit]: one shuffled [range(n_samples)]; its first
    [n_test] entries are the test indices and the next [n_train]
    the train indices.  Returns (train, test). *)
Definition shuffle_split (n_samples n_train n_test : nat)
    (rng : rng_state) : (list nat * list nat) * rng_state :=
  let '(perm, rng') := permutation rng n_samples in
  ((take n_train (drop n_test perm), take n_test perm), rng').

(** The indices [train_test_split] uses, and the process-wide
    generator afterwards (untouched when a seed is given). *)
Definition split_indices (n_samples : nat) (test_size : Q)
    (random_state : option Z) (global : rng_state)
  : result (list nat * list nat) * rng_state :=
  match validate_shuffle_split n_samples test_size with
  | raise e => (raise e, global)
  | ok (n_train, n_test) =>
      let '(inds, rng') :=
        shuffle_split n_samples n_train n_test
                      (check_random_state random_state global) in
      (ok inds,
       match random_state with Some _ => global | None => rng' end)
  end.

(** [train_test_split(X, y, test_size=..., random_state=...)]:
    returns [X_train, X_test, y_train, y_test]. *)
Definition train_test_split {A B} (X : list A) (y : list B)
    (test_size : Q) (random_state : option Z) (global : rng_state)
  : result (list A * list A * list B * list B) * rng_state :=
  if negb (length X =? length y) then
    (raise (ValueError "inconsistent numbers of samples"), global)
  else
    let '(r, global') :=
      split_indices (length X) test_size random_state global in
    ('(train, test) ← r;
     X_train ← np.take_indices X train;
     X_test ← np.take_indices X test;
     y_train ← np.take_indices y train;
     y_test ← np.take_indices y test;
     mret (X_train, X_test, y_train, y_test),
     global').
End Split.

(** [confusion_matrix(y_true, y_pred, labels=labels)]: entry (i, j)
    counts the samples whose true label is [labels[i]] and whose
    predicted label is [labels[j]]; samples with a label outside
    [labels] are not counted. *)
Definition label_to_ind (labels : list nat) : PyDict.dict nat nat :=
  foldl (λ d '(x, y), PyDict.setitem y x d) PyDict.empty (Py.enumerate labels).

Definition cell_count (to_ind : PyDict.dict nat nat)
    (pairs : list (nat * nat)) (i j : nat) : nat :=
  length (List.filter
            (λ '(t, p), bool_decide (PyDict.get t to_ind = Some i)
                        && bool_decide (PyDict.get p to_ind = Some j))
            pairs).

Definition confusion_matrix (y_true y_pred labels : list nat)
  : result (list (list nat)) :=
  if negb (length y_true =? length y_pred) then
    raise (ValueError "inconsistent numbers of samples")
  else
    let n_labels := length labels in
    if n_labels =? 0 then
      raise (ValueError "'labels' should contains at least one label.")
    else if length y_true =? 0 then
      ok (replicate n_labels (replicate n_labels 0))
    else if forallb (λ l, negb (bool_decide (l ∈ y_true))) labels then
      raise (ValueError "At least one label specified must be in y_true")
    else
      let to_ind := label_to_ind labels in
      let pairs := zip y_true y_pred in
      ok ((λ i, (λ j, cell_count to_ind pairs i j) <$> seq 0 n_labels)
            <$> seq 0 n_labels).

End sklearn.

(** ** pandas *)

Module pandas.

Record DataFrame : Type := mkDataFrame {
  data : list (list nat);
  columns : list string;
  index : list string
}.

(** [pd.DataFrame(data, columns=..., index=...)]: the axes must fit
    the shape of the data. *)
Definition DataFrame_of (data : list (list nat)) (columns index : list string)
  : result DataFrame :=
  if (length data =? length index)
     && forallb (λ row, length row =? length columns) data
  then ok (mkDataFrame data columns index)
  else raise (ValueError "Shape of passed values does not fit the axes").

(** The table [to_csv] writes, cell by cell: a header row with an
    empty corner and the column labels, then one row per index label
    followed by that row's counts. *)
Inductive cell : Type :=
  | Text (s : string)
  | Count (n : nat).

Definition to_csv (df : DataFrame) : list (list cell) :=
  (Text EmptyString :: (Text <$> columns df))
  :: zip_with (λ l row, Text l :: (Count <$> row)) (index df) (data df).

End pandas.

(** ** [repr] of strings and [str] of lists of strings

    [repr(s)] puts [s] in single quotes, or in double quotes when [s]
    holds a single quote and no double quote; it escapes the quote in
    use, the backslash, the control characters and every code point
    above 127 that is not printable, and leaves the other characters as
    they are.  Strings are held as their UTF-8 bytes. *)

(** What the Unicode database of the interpreter says of a code point
    above 127: whether it is printable ([str.isprintable]).  The table
    is not part of the script. *)
Class UnicodeData : Type := { isprintable : N → bool }.

Module PyRepr.

Definition hex_digit (n : nat) : ascii :=
  default "0"%char (String.get n "0123456789abcdef").

Definition backslash : ascii := ascii_of_nat 92.
Definition dquote : ascii := ascii_of_nat 34.

Definition escape (s : string) : string := String backslash s.

(** [n] written with [digits] lower-case hexadecimal digits. *)
Fixpoint hex (digits : nat) (n : N) : string :=
  match digits with
  | 0 => EmptyString
  | S d =>
      hex d (n / 16)%N
      +:+ String (hex_digit (N.to_nat (n mod 16)%N)) EmptyString
  end.

(** The characters of a string that is held as its UTF-8 bytes: a code
    point with the bytes that encode it, or a byte outside any
    well-formed sequence, which a file name carries as the lone
    surrogate U+DC00 + b. *)
Inductive item : Type :=
  | Char (cp : N) (bytes : string)
  | Stray (b : ascii).

(** A sequence that has begun: its bytes so far, the bits read, the
    number of bytes missing and the range the next byte must lie in. *)
Record partial : Type := mkPartial {
  seen : string;
  value : N;
  missing : nat;
  lo : N;
  hi : N
}.

Definition in_range (lo hi n : N) : bool := ((lo <=? n) && (n <=? hi))%N.

(** The well-formed lead bytes (C2..F4) and what must follow them. *)
Definition start (b : ascii) : option partial :=
  let n := N_of_ascii b in
  let first := String b EmptyString in
  if in_range 194 223 n then Some (mkPartial first (n - 192) 1 128 191)
  else if (n =? 224)%N then Some (mkPartial first (n - 224) 2 160 191)
  else if in_range 225 236 n then Some (mkPartial first (n - 224) 2 128 191)
  else if (n =? 237)%N then Some (mkPartial first (n - 224) 2 128 159)
  else if in_range 238 239 n then Some (mkPartial first (n - 224) 2 128 191)
  else if (n =? 240)%N then Some (mkPartial first (n - 240) 3 144 191)
  else if in_range 241 243 n then Some (mkPartial first (n - 240) 3 128 191)
  else if (n =? 244)%N then Some (mkPartial first (n - 240) 3 128 143)
  else None.

Fixpoint strays (s : string) : list item :=
  match s with
  | EmptyString => []
  | String b s' => Stray b :: strays s'
  end.

Fixpoint decode_from (p : option partial) (s : string) : list item :=
  match s with
  | EmptyString =>
      match p with
      | Some q => strays (seen q)
      | None => []
      end
  | String b s' =>
      let n := N_of_ascii b in
      let fresh :=
        if (n <? 128)%N then Char n (String b EmptyString) :: decode_from None s'
        else match start b with
             | Some q => decode_from (Some q) s'
             | None => Stray b :: decode_from None s'
             end in
      match p with
      | None => fresh
      | Some q =>
          if in_range (lo q) (hi q) n then
            let v := (value q * 64 + (n - 128))%N in
            let bytes := seen q +:+ String b EmptyString in
            match missing q with
            | 0 | 1 => Char v bytes :: decode_from None s'
            | S m => decode_from (Some (mkPartial bytes v m 128 191)) s'
            end
          else strays (seen q) ++ fresh
      end
  end.

Definition decode (s : string) : list item := decode_from None s.

(** The rules for a code point below 128. *)
Definition repr_char (quote a : ascii) : string :=
  let n := nat_of_ascii a in
  if Ascii.eqb a quote || Ascii.eqb a backslash then
    escape (String a EmptyString)
  else if n =? 9 then escape "t"
  else if n =? 10 then escape "n"
  else if n =? 13 then escape "r"
  else if (n <? 32) || (n =? 127) then
    escape (String "x" (String (hex_digit (n / 16))
                               (String (hex_digit (n mod 16)) EmptyString)))
  else String a EmptyString.

Definition quote_of (s : string) : ascii :=
  if Py.contains "'" s && negb (Py.contains dquote s) then dquote
  else "'"%char.

(** [", ".join(...)] *)
Fixpoint join (sep : string) (xs : list string) : string :=
  match xs with
  | [] => EmptyString
  | [x] => x
  | x :: xs' => x +:+ sep +:+ join sep xs'
  end.

Section Printable.
Context {U : UnicodeData}.

Definition repr_item (quote : ascii) (i : item) : string :=
  match i with
  | Stray b => escape ("udc" +:+ hex 2 (N_of_ascii b))
  | Char cp bytes =>
      if (cp <? 128)%N then repr_char quote (ascii_of_N cp)
      else if isprintable cp then bytes
      else if (cp <? 256)%N then escape ("x" +:+ hex 2 cp)
      else if (cp <? 65536)%N then escape ("u" +:+ hex 4 cp)
      else escape ("U" +:+ hex 8 cp)
  end.

Definition repr_body (quote : ascii) (s : string) : string :=
  foldr (λ i rest, repr_item quote i +:+ rest) EmptyString (decode s).

Definition repr (s : string) : string :=
  let q := quote_of s in
  String q (repr_body q s +:+ String q EmptyString).

(** [str(xs)] for a list of strings, as an f-string renders it. *)
Definition str_list (xs : list string) : string :=
  "[" +:+ join ", " (repr <$> xs) +:+ "]".
End Printable.

(** A string [repr] only wraps in single quotes: printable ASCII
    without quotes or backslashes. *)
Definition plain_char (a : ascii) : bool :=
  let n := nat_of_ascii a in
  negb (n <? 32) && (n <? 127) && negb (Ascii.eqb a "'")
  && negb (Ascii.eqb a backslash).

Fixpoint plain (s : string) : bool :=
  match s with
  | EmptyString => true
  | String a s' => plain_char a && plain s'
  end.

End PyRepr.

(** ** The epoch length (train.py, lines 108 and 116) *)

Definition batch_size : nat := 32.

(** [X_train.shape[0] // 32] *)
Definition steps_per_epoch {Image} (X_train : list Image) : nat :=
  length X_train / 32.

(** ** The evaluator and reporter (train.py, lines 124-147) *)

(** Lines 125-126: the confusion matrix over the test set, with the
    label strings on both axes. *)
Definition confusion_frame (label_index : PyDict.dict string nat)
    (y_test y_pred : list nat) : result pandas.DataFrame :=
  cm ← sklearn.confusion_matrix y_test y_pred (PyDict.values label_index);
  pandas.DataFrame_of cm (PyDict.keys label_index) (PyDict.keys label_index).

(** Lines 133-135: the comprehension over [range(len(y_pred))]. *)
Fixpoint wrong_among (y_pred y_test : list nat) (idxs : list nat)
  : result (list nat) :=
  match idxs with
  | [] => mret []
  | idx :: idxs' =>
      p ← np.item y_pred idx;
      t ← np.item y_test idx;
      rest ← wrong_among y_pred y_test idxs';
      mret (if negb (p =? t) then idx :: rest else rest)
  end.

Definition wrong_pictures_idx (y_pred y_test : list nat) : result (list nat) :=
  wrong_among y_pred y_test (seq 0 (length y_pred)).

(** Lines 138-143: [[key for key, val in label_index.items()
    if val == a[image_idx]]]; the array is read once per item. *)
Fixpoint keys_with_value (items : list (string * nat)) (a : list nat)
    (image_idx : nat) : result (list string) :=
  match items with
  | [] => mret []
  | (key, val) :: items' =>
      c ← np.item a image_idx;
      rest ← keys_with_value items' a image_idx;
      mret (if val =? c then key :: rest else rest)
  end.

(** Line 144, the f-string. *)
Definition title {U : UnicodeData} (true_label predicted_label : list string)
  : string :=
  "true " +:+ PyRepr.str_list true_label
  +:+ ": predicted " +:+ PyRepr.str_list predicted_label.

(** What one call of [tf.summary.image] hands to the writer. *)
Record image_summary (Image : Type) : Type := mkSummary {
  tag : string;
  images : list Image;
  step : nat;
  max_outputs : nat
}.
Arguments mkSummary {Image}.
Arguments tag {Image}.
Arguments images {Image}.
Arguments step {Image}.
Arguments max_outputs {Image}.

(** Lines 137-147, one turn of the loop. *)
Definition report_one {U : UnicodeData} {Image}
    (label_index : PyDict.dict string nat)
    (X_test : list Image) (y_test y_pred : list nat) (image_idx : nat)
  : result (image_summary Image) :=
  true_label ← keys_with_value (PyDict.items label_index) y_test image_idx;
  predicted_label ← keys_with_value (PyDict.items label_index) y_pred image_idx;
  mret (mkSummary (title true_label predicted_label)
                  (np.slice X_test image_idx (image_idx + 1)) 100 1).

(** Lines 133-147: the summaries written, in the order of writing. *)
Definition report_wrong_pictures {U : UnicodeData} {Image}
    (label_index : PyDict.dict string nat)
    (X_test : list Image) (y_test y_pred : list nat)
  : result (list (image_summary Image)) :=
  wrong ← wrong_pictures_idx y_pred y_test;
  mapM (report_one label_index X_test y_test y_pred) (take 20 wrong).

(** ** The network (train.py, lines 27-51)

    The layers of [tensorflow.keras] that [build_model] stacks, with the
    arguments the source gives them, and the shape each one puts out for
    an input shape (the batch axis left out): a convolution or a pooling
    with the default [valid] padding slides its window inside the image,
    [Dropout] keeps the shape, [Flatten] multiplies the axes out and
    [Dense] replaces the last axis. *)

Module keras.

Inductive activation : Type := relu | softmax.

Inductive layer : Type :=
  | Conv2D (filters : nat) (kernel_size : nat * nat) (act : activation)
  | MaxPool2D (pool_size : nat * nat) (strides : option (nat * nat))
  | Dropout (rate : Q)
  | Flatten
  | Dense (units : nat) (act : activation).

(** The number of positions of a window of [size] moved by [stride]
    inside [extent]. *)
Definition window (size stride extent : nat) : result nat :=
  if (size <=? extent) && (0 <? stride) then
    ok ((extent - size) / stride + 1)
  else raise (ValueError "Negative dimension size").

Definition output_shape (l : layer) (s : list nat) : result (list nat) :=
  match l with
  | Conv2D filters (kh, kw) _ =>
      match s with
      | [h; w; _] =>
          h' ← window kh 1 h; w' ← window kw 1 w; mret [h'; w'; filters]
      | _ => raise (ValueError "expected min_ndim=4")
      end
  | MaxPool2D (ph, pw) strides =>
      let '(sh, sw) := default (ph, pw) strides in
      match s with
      | [h; w; c] => h' ← window ph sh h; w' ← window pw sw w; mret [h'; w'; c]
      | _ => raise (ValueError "expected ndim=4")
      end
  | Dropout _ => ok s
  | Flatten => ok [foldr Nat.mul 1 s]
  | Dense units _ =>
      match reverse s with
      | _ :: rest => ok (reverse rest ++ [units])
      | [] => raise (ValueError "expected min_ndim=2")
      end
  end.

(** The output shape of every layer of a stack, in turn. *)
Fixpoint shapes (ls : list layer) (s : list nat) : result (list (list nat)) :=
  match ls with
  | [] => mret []
  | l :: ls' =>
      s' ← output_shape l s; rest ← shapes ls' s'; mret (s' :: rest)
  end.

(** A compiled [Sequential] model. *)
Record Sequential : Type := mkSequential {
  layers : list layer;
  input_shape : list nat;
  loss : string;
  learning_rate : Q;
  metrics : list string
}.

Definition model_output_shape (m : Sequential) : result (list nat) :=
  out ← shapes (layers m) (input_shape m);
  mret (default (input_shape m) (last out)).

(** [ImageDataGenerator(...)], lines 86-91. *)
Record ImageDataGenerator : Type := mkDatagen {
  rotation_range : nat;
  width_shift_range : Q;
  height_shift_range : Q;
  data_format : string
}.

(** [datagen.flow(x, y, batch_size=...)]: an iterator that yields the
    samples in batches, pass after pass. *)
Record NumpyArrayIterator (Image : Type) : Type := mkIterator {
  iterator_datagen : ImageDataGenerator;
  iterator_x : list Image;
  iterator_y : list nat;
  iterator_batch_size : nat
}.
Arguments mkIterator {Image}.
Arguments iterator_datagen {Image}.
Arguments iterator_x {Image}.
Arguments iterator_y {Image}.
Arguments iterator_batch_size {Image}.


(** The arguments of [model.fit_generator], lines 114-121. *)
Record FitCall (Image : Type) : Type := mkFitCall {
  fit_model : Sequential;
  fit_generator_arg : NumpyArrayIterator Image;
  fit_steps_per_epoch : nat;
  fit_epochs : nat;
  fit_validation_data : list Image * list nat
}.
Arguments mkFitCall {Image}.
Arguments fit_model {Image}.
Arguments fit_generator_arg {Image}.
Arguments fit_steps_per_epoch {Image}.
Arguments fit_epochs {Image}.
Arguments fit_validation_data {Image}.

(** [model.fit_generator(...)]: an epoch is [steps_per_epoch] batches
    drawn from the iterator; with [steps_per_epoch=0] there is no batch
    to train on and the call raises a [ValueError] (its text differs
    between releases).  What the fit does to the weights is not
    modelled here. *)
Definition fit_generator {Image} (call : FitCall Image) : result unit :=
  if fit_steps_per_epoch call =? 0 then
    raise (ValueError "Unexpected value for steps_per_epoch: 0")
  else ok tt.

End keras.

(** Lines 27-51. *)
Definition build_model (num_class : nat) : keras.Sequential :=
  keras.mkSequential
    [ keras.Conv2D 32 (3, 3) keras.relu;
      keras.Conv2D 32 (3, 3) keras.relu;
      keras.MaxPool2D (2, 2) None;
      keras.Dropout (1 # 4);
      keras.Conv2D 32 (3, 3) keras.relu;
      keras.Conv2D 32 (3, 3) keras.relu;
      keras.MaxPool2D (2, 2) (Some (2, 2));
      keras.Dropout (1 # 4);
      keras.Flatten;
      keras.Dense 64 keras.relu;
      keras.Dropout (1 # 2);
      keras.Dense num_class keras.softmax ]
    [28; 28; 1]
    "sparse_categorical_crossentropy"
    (1 # 1000)
    ["accuracy"].

(** ** The whole of [train] *)

(** Lines 86-91. *)
Definition train_datagen : keras.ImageDataGenerator :=
  keras.mkDatagen 20 (1 # 10) (1 # 10) "channels_last".

Record Run (Image : Type) : Type := mkRun {
  run_label_index : PyDict.dict string nat;
  run_train : list Image * list nat;
  run_test : list Image * list nat;
  run_steps_per_epoch : nat;
  run_confusion_matrix : pandas.DataFrame;
  run_csv : list (list pandas.cell);
  run_summaries : list (image_summary Image)
}.
Arguments mkRun {Image}.
Arguments run_label_index {Image}.
Arguments run_train {Image}.
Arguments run_test {Image}.
Arguments run_steps_per_epoch {Image}.
Arguments run_confusion_matrix {Image}.
Arguments run_csv {Image}.
Arguments run_summaries {Image}.

Section Train.
Context {G : RNG} {U : UnicodeData} {Image : Type}.

(** Lines 65-72 for one file: decode as grayscale and resize. *)
Variable imread : string → result Image.

(** Lines 114-124: the scores that the network of a [fit_generator]
    call, once fitted, gives to images; one row per image.  What the
    fit makes of the network is left abstract. *)
Variable fit_predict : keras.FitCall Image → list Image → list (list Q).

(** The call on lines 114-121. *)
Definition fit_call (label_index : PyDict.dict string nat)
    (X_train X_test : list Image) (y_train y_test : list nat)
  : keras.FitCall Image :=
  keras.mkFitCall
    (build_model (PyDict.len label_index))
    (keras.mkIterator train_datagen X_train y_train batch_size)
    (steps_per_epoch X_train)
    100
    (X_test, y_test).

(** [labels] is the listing line 81 comes up with, [global] the state
    of the process-wide generator. *)
Definition train (input_type : string) (all_image_paths : list string)
    (labels : list string) (global : rng_state) : result (Run Image) :=
  all_images ← mapM imread all_image_paths;
  '(label_index, all_labels) ←
    label_stage input_type all_image_paths labels;
  '(X_train, X_test, y_train, y_test) ←
    (sklearn.train_test_split all_images all_labels (33 # 100)
                              (Some 0%Z) global).1;
  let call := fit_call label_index X_train X_test y_train y_test in
  keras.fit_generator call ;;
  y_pred ← np.argmax_rows (fit_predict call X_test);
  cm ← confusion_frame label_index y_test y_pred;
  let csv := pandas.to_csv cm in
  summaries ← report_wrong_pictures label_index X_test y_test y_pred;
  mret (mkRun label_index (X_train, y_train) (X_test, y_test)
              (keras.fit_steps_per_epoch call) cm csv summaries).
End Train.

(** ** Reference definitions for the statements below *)

(** The text before the first [c]; all of [s] when it has no [c]. *)
Fixpoint before_first (c : ascii) (s : string) : string :=
  match s with
  | EmptyString => EmptyString
  | String a s' => if Ascii.eqb a c then EmptyString
                   else String a (before_first c s')
  end.

(** The text after the last [c]; all of [s] when it has no [c]. *)
Fixpoint after_last (c : ascii) (s : string) : string :=
  match s with
  | EmptyString => EmptyString
  | String a s' =>
      if Py.contains c s' then after_last c s'
      else if Ascii.eqb a c then s' else s
  end.

(** Position of the first and of the last [c]. *)
Fixpoint find_first (c : ascii) (s : string) : option nat :=
  match s with
  | EmptyString => None
  | String a s' => if Ascii.eqb a c then Some 0
                   else S <$> find_first c s'
  end.

Fixpoint find_last (c : ascii) (s : string) : option nat :=
  match s with
  | EmptyString => None
  | String a s' =>
      match find_last c s' with
      | Some i => Some (S i)
      | None => if Ascii.eqb a c then Some 0 else None
      end
  end.

(** The wording "the substring after the last underscore in the
    filename, before the first dot", read as the stretch of the file
    name between its last underscore and its first dot. *)
Definition label_between (name : string) : option string :=
  i ← find_last "_" name;
  j ← find_first "." name;
  if i <? j then Some (String.substring (S i) (j - S i) name) else None.

(** The same wording read as two cuts, in the order of the words: what
    follows the last underscore of the file name, up to its first dot. *)
Definition label_after_then_before (name : string) : option string :=
  i ← find_last "_" name;
  Some (before_first "." (String.substring (S i) (String.length name - S i) name)).

(** A string that is one path component: not empty, not [.], no slash. *)
Definition component (f : string) : Prop :=
  pathlib.is_component f = true ∧ Py.contains "/" f = false.

(** The number of distinct label strings among [all_labels]. *)
Definition num_classes (all_labels : list string) : nat :=
  size (list_to_set all_labels : gset string).

(** The paths whose label is not the empty string: in mode [mnist] the
    path has a component above the file name; in mode [chinese] the part
    of the file name before its first dot is not empty and does not end
    in an underscore. *)
Definition labelled (input_type path : string) : Prop :=
  if String.eqb input_type "mnist" then
    2 ≤ length (pathlib.parts (pathlib.Path path))
  else
    let stem := before_first "." (pathlib.name (pathlib.Path path)) in
    stem ≠ EmptyString ∧ Py.endswith "_" stem = false.

(** The sum of all entries of a matrix. *)
Definition matrix_sum (m : list (list nat)) : nat := sum_list (sum_list <$> m).

(** Entry [(i, j)] of a matrix. *)
Definition entry (m : list (list nat)) (i j : nat) : option nat :=
  row ← m !! i; row !! j.

(** The number of samples of true class [i] that are predicted as [j]. *)
Definition count_pairs (y_true y_pred : list nat) (i j : nat) : nat :=
  length (filter (λ tp, tp = (i, j)) (zip y_true y_pred)).

(** The positions at which prediction and truth differ, in test-set
    order. *)
Definition misclassified (y_pred y_test : list nat) : list nat :=
  filter (λ idx, y_pred !! idx ≠ y_test !! idx) (seq 0 (length y_pred)).

(** The output of a network with [k] classes on [n] images: [n] rows of
    [k] scores. *)
Definition has_shape (probs : list (list Q)) (n k : nat) : Prop :=
  length probs = n ∧ Forall (λ row, length row = k) probs.

(** What the summary written for test position [idx] holds: the test
    image at that position alone, under a tag made of the renderings of
    the two one-element lists of labels, with step 100. *)
Definition reports {U : UnicodeData} {Image} (labels : list string)
    (X_test : list Image)
    (y_test y_pred : list nat) (idx : nat) (s : image_summary Image) : Prop :=
  ∃ x t p lt lp,
    X_test !! idx = Some x ∧ y_test !! idx = Some t ∧ y_pred !! idx = Some p
    ∧ t ≠ p ∧ labels !! t = Some lt ∧ labels !! p = Some lp
    ∧ tag s = "true [" +:+ PyRepr.repr lt
              +:+ "]: predicted [" +:+ PyRepr.repr lp +:+ "]"
    ∧ images s = [x] ∧ step s = 100 ∧ max_outputs s = 1.

(** A small generator for the examples: the state is a counter, and
    [permutation] rotates [range(n)] by it. *)
Definition rotate_rng : RNG := {|
  rng_state := nat;
  RandomState := Z.to_nat;
  permutation := λ s n,
    (drop (s `mod` S n) (seq 0 n) ++ take (s `mod` S n) (seq 0 n), S s)
|}.

(** A stand-in for the fitted network: it scores class [i mod k] highest
    for the [i]-th test image. *)
Definition modulo_scores (k : nat) (n : nat) : list (list Q) :=
  (λ i, (λ c, if c =? i `mod` k then 1%Q else 0%Q) <$> seq 0 k) <$> seq 0 n.

(** The sum of the diagonal of a matrix. *)
Definition trace (m : list (list nat)) : nat :=
  sum_list_with (λ i, default 0 (entry m i i)) (seq 0 (length m)).

(** Column [j] of a matrix. *)
Definition column (m : list (list nat)) (j : nat) : list nat :=
  (λ row, default 0 (row !! j)) <$> m.

(** The fitted network gives every image one score for each output of
    the network, whenever the fit took place. *)
Definition scores_every_class {Image}
    (fit_predict : keras.FitCall Image → list Image → list (list Q)) : Prop :=
  ∀ (call : keras.FitCall Image) (X : list Image) (k : nat),
    keras.model_output_shape (keras.fit_model call) = ok [k] →
    0 < keras.fit_steps_per_epoch call →
    has_shape (fit_predict call X) (length X) k.

(** A stand-in for the fit: whatever the call, the network scores class
    [i mod k] highest for the [i]-th image, [k] being its width. *)
Definition modulo_network {Image} (call : keras.FitCall Image)
    (X : list Image) : list (list Q) :=
  match keras.model_output_shape (keras.fit_model call) with
  | ok [k] => modulo_scores k (length X)
  | _ => []
  end.

(** A table for the examples, whose strings are ASCII: it calls no code
    point above 127 printable. *)
Definition ascii_table : UnicodeData := {| isprintable := λ _, false |}.

(** Input files for the examples: [n] pictures, in turn in the
    directories [catA] and [catB]. *)
Definition sample_paths (n : nat) : list string :=
  (λ i, (if Nat.even i then "/i/catA/" else "/i/catB/")
        +:+ pretty i +:+ ".png") <$> seq 0 n.

(** * Properties *)

(** ** The error monad *)

Lemma bind_ok {A B} (f : A → result B) (a : A) : (ok a ≫= f) = f a.
Proof. reflexivity. Qed.

Lemma bind_raise {A B} (f : A → result B) (e : exn) :
  (raise e ≫= f) = raise e.
Proof. reflexivity. Qed.

Lemma mapM_cons {A B} (f : A → result B) (x : A) (l : list A) :
  mapM f (x :: l) = (y ← f x; k ← mapM f l; mret (y :: k)).
Proof. reflexivity. Qed.

Lemma mapM_ok_fmap {A B} (f : A → result B) (g : A → B) (l : list A) :
  (∀ x, x ∈ l → f x = ok (g x)) → mapM f l = ok (g <$> l).
Proof.
  induction l as [|x l IH]; intros Hf; [reflexivity|].
  cbn. rewrite (Hf x) by left. cbn.
  rewrite IH by (intros y Hy; apply Hf; by right). reflexivity.
Qed.

Lemma mapM_ok_length {A B} (f : A → result B) (l : list A) (k : list B) :
  mapM f l = ok k → length k = length l.
Proof.
  revert k. induction l as [|x l IH]; intros k; cbn.
  - intros [= <-]. reflexivity.
  - destruct (f x) as [y|e]; cbn; [|discriminate].
    destruct (mapM f l) as [k'|e]; cbn; [|discriminate].
    intros [= <-]. cbn. f_equal. by apply IH.
Qed.

(** ** Strings: [split], [contains] and the two cuts *)

Section Strings.
Implicit Types (c a : ascii) (s t : string).

Lemma append_cons a s t : String a s +:+ t = String a (s +:+ t).
Proof. reflexivity. Qed.

Lemma append_nil s : EmptyString +:+ s = s.
Proof. reflexivity. Qed.

Lemma split_not_nil c s : Py.split c s ≠ [].
Proof.
  destruct s as [|a s]; cbn; [done|].
  destruct (Ascii.eqb a c); [done|]. by destruct (Py.split c s).
Qed.

Lemma split_no_sep c s : Py.contains c s = false → Py.split c s = [s].
Proof.
  induction s as [|a s IH]; cbn; [done|].
  destruct (Ascii.eqb a c); [done|]. intros H. by rewrite IH.
Qed.

Lemma split_with_sep c s :
  Py.contains c s = true → ∃ f1 f2 fs, Py.split c s = f1 :: f2 :: fs.
Proof.
  induction s as [|a s IH]; cbn; [done|].
  destruct (Ascii.eqb a c).
  - intros _. destruct (Py.split c s) as [|f fs] eqn:E.
    + by apply split_not_nil in E.
    + eauto.
  - intros H. destruct (IH H) as (f1 & f2 & fs & ->). eauto.
Qed.

Lemma contains_app c s t :
  Py.contains c (s +:+ t) = Py.contains c s || Py.contains c t.
Proof.
  induction s as [|a s IH]; [done|].
  rewrite append_cons. cbn. destruct (Ascii.eqb a c); [done|apply IH].
Qed.

Lemma split_app c s t :
  Py.split c (s +:+ String c t) = Py.split c s ++ Py.split c t.
Proof.
  induction s as [|a s IH].
  - rewrite append_nil. cbn. by rewrite Ascii.eqb_refl.
  - rewrite append_cons. cbn. destruct (Ascii.eqb a c); [by rewrite IH|].
    rewrite IH. destruct (Py.split c s) as [|f fs] eqn:E; [|done].
    by apply split_not_nil in E.
Qed.

Lemma split_head c s : head (Py.split c s) = Some (before_first c s).
Proof.
  induction s as [|a s IH]; cbn; [done|].
  destruct (Ascii.eqb a c); [done|].
  destruct (Py.split c s) as [|f fs]; cbn in *; [done|]. by inversion IH.
Qed.

Lemma after_last_no_sep c s : Py.contains c s = false → after_last c s = s.
Proof.
  destruct s as [|a s]; cbn; [done|].
  destruct (Ascii.eqb a c); [done|]. by intros ->.
Qed.

Lemma split_last c s : last (Py.split c s) = Some (after_last c s).
Proof.
  induction s as [|a s IH]; cbn; [done|].
  destruct (Py.contains c s) eqn:Hc.
  - destruct (split_with_sep _ _ Hc) as (f1 & f2 & fs & E).
    rewrite E in IH |- *. by destruct (Ascii.eqb a c).
  - rewrite (split_no_sep _ _ Hc) in IH |- *.
    rewrite after_last_no_sep in IH by done.
    by destruct (Ascii.eqb a c).
Qed.

Lemma before_first_no_sep c s :
  Py.contains c s = false → before_first c s = s.
Proof.
  induction s as [|a s IH]; cbn; [done|].
  destruct (Ascii.eqb a c); [done|]. intros H. by rewrite IH.
Qed.

Lemma before_first_app c s t :
  Py.contains c s = false → before_first c (s +:+ String c t) = s.
Proof.
  induction s as [|a s IH].
  - rewrite append_nil. cbn. by rewrite Ascii.eqb_refl.
  - rewrite append_cons. cbn.
    destruct (Ascii.eqb a c); [done|]. intros H. by rewrite IH.
Qed.

Lemma after_last_app c s t :
  Py.contains c t = false → after_last c (s +:+ String c t) = t.
Proof.
  intros Ht. induction s as [|a s IH].
  - rewrite append_nil. cbn. by rewrite Ht, Ascii.eqb_refl.
  - rewrite append_cons. cbn.
    rewrite contains_app. cbn. rewrite Ascii.eqb_refl, orb_true_r. done.
Qed.

Lemma before_first_contains c s : Py.contains c (before_first c s) = false.
Proof.
  induction s as [|a s IH]; cbn; [done|].
  destruct (Ascii.eqb a c) eqn:E; cbn; [done|]. by rewrite E.
Qed.

Lemma endswith_no_sep c s : Py.contains c s = false → Py.endswith c s = false.
Proof.
  induction s as [|a s IH]; cbn; [done|].
  destruct (Ascii.eqb a c); [done|]. intros H.
  destruct s; [done|]. by apply IH.
Qed.

Lemma after_last_empty c s :
  after_last c s = EmptyString ↔ s = EmptyString ∨ Py.endswith c s = true.
Proof.
  induction s as [|a s IH]; cbn; [intuition auto|].
  destruct (Py.contains c s) eqn:Hc.
  - rewrite IH. destruct s as [|b s]; [done|].
    intuition discriminate.
  - destruct s as [|b s].
    + destruct (Ascii.eqb a c); intuition discriminate.
    + rewrite (endswith_no_sep _ _ Hc).
      destruct (Ascii.eqb a c); intuition discriminate.
Qed.
End Strings.

(** ** Indexing *)

Lemma getitem_first {A} (xs : list A) (x : A) :
  head xs = Some x → Py.getitem xs 0 = ok x.
Proof. by destruct xs as [|y xs]; intros [= ->]. Qed.

Lemma getitem_last {A} (xs : list A) (x : A) :
  last xs = Some x → Py.getitem xs (-1) = ok x.
Proof.
  intros H. unfold Py.getitem.
  assert (length xs ≠ 0) by (destruct xs; [done|cbn; lia]).
  replace (if (-1 <? 0)%Z then (-1 + Z.of_nat (length xs))%Z else (-1)%Z)
    with (Z.of_nat (length xs - 1)) by (cbn; lia).
  destruct (Z.ltb_spec (Z.of_nat (length xs - 1)) 0); [lia|].
  rewrite Nat2Z.id. rewrite last_lookup in H.
  replace (length xs - 1) with (pred (length xs)) by lia. by rewrite H.
Qed.

(** ** The label of a file name *)

(** The source's two splits and two indexings never fail, and cut the
    name first at its first dot and then after the last underscore of
    what is left. *)
Lemma label_of_name_cuts (name : string) :
  label_of_name name = ok (after_last "_" (before_first "." name)).
Proof.
  unfold label_of_name.
  rewrite (getitem_first _ _ (split_head "." name)). cbn.
  apply getitem_last, split_last.
Qed.

(** ** Paths *)

Section Paths.
Implicit Types (dir f d : string).

Lemma parts_join dir f :
  pathlib.parts (pathlib.Path (dir +:+ "/" +:+ f))
  = pathlib.parts (pathlib.Path dir) ++ pathlib.parts (pathlib.Path f).
Proof.
  unfold pathlib.Path; cbn [pathlib.parts].
  change ("/" +:+ f) with (String "/" f).
  by rewrite split_app, List.filter_app.
Qed.

Lemma parts_component f : component f → pathlib.parts (pathlib.Path f) = [f].
Proof.
  intros [Hc Hs]. unfold pathlib.Path; cbn [pathlib.parts].
  rewrite (split_no_sep _ _ Hs). cbn. by rewrite Hc.
Qed.

Lemma parts_nonempty (path : string) :
  Forall (λ c, c ≠ EmptyString) (pathlib.parts (pathlib.Path path)).
Proof.
  unfold pathlib.Path; cbn [pathlib.parts].
  apply Forall_forall. intros c Hc.
  apply list_elem_of_In, List.filter_In in Hc as [_ Hc].
  intros ->. discriminate.
Qed.

(** The file name of [dir/f] is [f]. *)
Lemma name_join dir f :
  component f → pathlib.name (pathlib.Path (dir +:+ "/" +:+ f)) = f.
Proof.
  intros Hf. unfold pathlib.name.
  by rewrite parts_join, (parts_component f Hf), last_snoc.
Qed.

(** The parent of [dir/f] has the components of [dir]. *)
Lemma parent_join dir f :
  component f →
  pathlib.parts (pathlib.parent (pathlib.Path (dir +:+ "/" +:+ f)))
  = pathlib.parts (pathlib.Path dir).
Proof.
  intros Hf. unfold pathlib.parent; cbn [pathlib.parts].
  rewrite parts_join, (parts_component f Hf). apply removelast_last.
Qed.

Lemma mnist_label_join dir d f :
  component d → component f →
  mnist_label (dir +:+ "/" +:+ d +:+ "/" +:+ f) = d.
Proof.
  intros Hd Hf.
  unfold mnist_label, pathlib.name, pathlib.parent; cbn [pathlib.parts].
  rewrite !parts_join, (parts_component d Hd), (parts_component f Hf).
  by rewrite app_assoc, removelast_last, last_snoc.
Qed.

(** The parent has a name exactly when the path has two components. *)
Lemma mnist_label_nonempty (path : string) :
  mnist_label path ≠ EmptyString
  ↔ 2 ≤ length (pathlib.parts (pathlib.Path path)).
Proof.
  unfold mnist_label, pathlib.name, pathlib.parent; cbn [pathlib.parts].
  pose proof (parts_nonempty path) as Hne.
  destruct (pathlib.parts (pathlib.Path path)) as [|c l _] using rev_ind.
  - cbn. split; [done|lia].
  - rewrite removelast_last, length_app. cbn.
    apply Forall_app in Hne as [Hne _].
    destruct l as [|c' l _] using rev_ind.
    + cbn. split; [done|lia].
    + rewrite last_snoc, length_app. cbn.
      apply Forall_app in Hne as [_ Hne]. inversion_clear Hne.
      split; [lia|done].
Qed.
End Paths.

(** A label of mode [chinese] is empty exactly when the part of the file
    name before its first dot is empty or ends in an underscore. *)
Lemma label_of_name_empty (name : string) :
  label_of_name name = ok EmptyString
  ↔ before_first "." name = EmptyString
    ∨ Py.endswith "_" (before_first "." name) = true.
Proof.
  rewrite label_of_name_cuts, <- after_last_empty.
  split; [by intros [= ->]|by intros ->].
Qed.

(** ** Dictionaries built from distinct keys *)

Section Dicts.
Context {K V : Type} `{EqDecision K}.
Implicit Types (d : PyDict.dict K V) (k : K) (v : V).

Lemma setitem_fresh k v d :
  k ∉ PyDict.keys d → PyDict.setitem k v d = d ++ [(k, v)].
Proof.
  unfold PyDict.keys. induction d as [|[k' v'] d IH]; cbn; [done|].
  intros Hk. apply not_elem_of_cons in Hk as [Hne Hk].
  destruct (decide (k' = k)); [congruence|]. by rewrite IH.
Qed.

Lemma get_app_fresh k d d' :
  k ∉ PyDict.keys d → PyDict.get k (d ++ d') = PyDict.get k d'.
Proof.
  unfold PyDict.keys. induction d as [|[k' v'] d IH]; cbn; [done|].
  intros Hk. apply not_elem_of_cons in Hk as [Hne Hk].
  destruct (decide (k' = k)); [congruence|]. by apply IH.
Qed.

Lemma get_None k d : k ∉ PyDict.keys d → PyDict.get k d = None.
Proof.
  intros Hk. rewrite <- (app_nil_r d). by rewrite get_app_fresh.
Qed.
End Dicts.

Section Enumerate.
Context {K : Type} `{EqDecision K}.
Implicit Types (ks : list K) (d : PyDict.dict K nat).

(** A comprehension [{k: i for i, k in enumerate(ks)}] over distinct
    keys lists the keys in their order, each with its position. *)
Lemma comprehension_from ks d (start : nat) :
  NoDup ks → (∀ k, k ∈ ks → k ∉ PyDict.keys d) →
  foldl (λ d '(i, k), PyDict.setitem k i d) d
        (zip (seq start (length ks)) ks)
  = d ++ zip ks (seq start (length ks)).
Proof.
  revert d start. induction ks as [|k ks IH]; intros d start Hnd Hd; cbn.
  - by rewrite app_nil_r.
  - apply NoDup_cons in Hnd as [Hk Hnd].
    rewrite setitem_fresh by (apply Hd; left).
    rewrite IH; [by rewrite <- app_assoc|done|].
    intros k' Hk'. unfold PyDict.keys. rewrite fmap_app. cbn.
    rewrite elem_of_app, list_elem_of_singleton.
    intros [Hin| ->]; [|done]. by apply (Hd k'); [right|].
Qed.

Lemma comprehension ks :
  NoDup ks →
  foldl (λ d '(i, k), PyDict.setitem k i d) PyDict.empty (Py.enumerate ks)
  = zip ks (seq 0 (length ks)).
Proof.
  intros Hnd. unfold Py.enumerate, PyDict.empty.
  rewrite (comprehension_from ks [] 0 Hnd); [done|].
  intros k _. unfold PyDict.keys. cbn. apply not_elem_of_nil.
Qed.

Lemma keys_zip_seq ks (start : nat) :
  PyDict.keys (zip ks (seq start (length ks))) = ks.
Proof.
  unfold PyDict.keys. revert start.
  induction ks as [|k ks IH]; intros start; cbn; [done|]. by rewrite IH.
Qed.

Lemma values_zip_seq ks (start : nat) :
  PyDict.values (zip ks (seq start (length ks))) = seq start (length ks).
Proof.
  unfold PyDict.values. revert start.
  induction ks as [|k ks IH]; intros start; cbn; [done|]. by rewrite IH.
Qed.

Lemma get_zip_seq ks (start i : nat) k :
  NoDup ks → ks !! i = Some k →
  PyDict.get k (zip ks (seq start (length ks))) = Some (start + i).
Proof.
  revert start i. induction ks as [|k' ks IH]; intros start i Hnd; [done|].
  apply NoDup_cons in Hnd as [Hk' Hnd]. cbn.
  destruct i as [|i]; cbn.
  - intros [= ->]. rewrite decide_True by done. f_equal; lia.
  - intros Hi. destruct (decide (k' = k)) as [->|_].
    + exfalso. apply Hk'. by eapply list_elem_of_lookup_2.
    + rewrite (IH (S start) i) by done. f_equal; lia.
Qed.

Lemma get_zip_seq_inv ks (start j : nat) k :
  PyDict.get k (zip ks (seq start (length ks))) = Some j →
  start ≤ j ∧ ks !! (j - start) = Some k.
Proof.
  revert start. induction ks as [|k' ks IH]; intros start; cbn; [done|].
  destruct (decide (k' = k)) as [->|_].
  - intros [= <-]. rewrite Nat.sub_diag. split; [lia|done].
  - intros Hj. apply IH in Hj as [Hle Hj]. split; [lia|].
    replace (j - start) with (S (j - S start)) by lia. done.
Qed.
End Enumerate.

(** ** The label index *)

Section LabelIndex.
Implicit Types (all_labels labels : list string).

Lemma set_listing_NoDup all_labels labels :
  set_listing all_labels labels → NoDup labels.
Proof. intros H. unfold set_listing in H. rewrite H. apply NoDup_elements. Qed.

Lemma set_listing_elem all_labels labels (l : string) :
  set_listing all_labels labels → l ∈ labels ↔ l ∈ all_labels.
Proof.
  intros H. unfold set_listing in H.
  by rewrite H, elem_of_elements, elem_of_list_to_set.
Qed.

Lemma set_listing_length all_labels labels :
  set_listing all_labels labels → length labels = num_classes all_labels.
Proof. intros H. unfold set_listing in H. by rewrite H. Qed.

Lemma make_label_index_zip labels :
  NoDup labels →
  make_label_index labels = zip labels (seq 0 (length labels)).
Proof. apply comprehension. Qed.

Lemma len_label_index labels :
  NoDup labels → PyDict.len (make_label_index labels) = length labels.
Proof.
  intros Hnd. rewrite (make_label_index_zip _ Hnd). unfold PyDict.len.
  rewrite length_zip_with, length_seq. lia.
Qed.

Lemma keys_label_index labels :
  NoDup labels → PyDict.keys (make_label_index labels) = labels.
Proof. intros Hnd. rewrite make_label_index_zip by done. apply keys_zip_seq. Qed.

Lemma values_label_index labels :
  NoDup labels →
  PyDict.values (make_label_index labels) = seq 0 (length labels).
Proof. intros Hnd. rewrite make_label_index_zip by done. apply values_zip_seq. Qed.

(** The index is a bijection between the labels and their positions. *)
Lemma lookup_label_position labels (i : nat) (l : string) :
  NoDup labels →
  lookup_label (make_label_index labels) l = ok i ↔ labels !! i = Some l.
Proof.
  intros Hnd. unfold lookup_label. rewrite make_label_index_zip by done.
  split.
  - destruct (PyDict.get _ _) as [j|] eqn:E; [|done]. intros [= ->].
    apply get_zip_seq_inv in E as [_ E]. by rewrite Nat.sub_0_r in E.
  - intros Hi. by rewrite (get_zip_seq labels 0 i l Hnd Hi).
Qed.

Lemma encode_labels_ok labels all_labels :
  NoDup labels → (∀ l, l ∈ all_labels → l ∈ labels) →
  ∃ codes, encode_labels (make_label_index labels) all_labels = ok codes
           ∧ Forall2 (λ l c, labels !! c = Some l) all_labels codes.
Proof.
  intros Hnd. unfold encode_labels.
  induction all_labels as [|l all_labels IH]; intros Hin.
  - exists []. by split; [|constructor].
  - destruct IH as (codes & Hc & HF); [intros; apply Hin; by right|].
    destruct (list_elem_of_lookup_1 labels l) as [i Hi]; [apply Hin; left|].
    exists (i :: codes). split; [|by constructor].
    cbn. rewrite (proj2 (lookup_label_position labels i l Hnd) Hi). cbn.
    fold (mapM (lookup_label (make_label_index labels)) all_labels).
    by rewrite Hc.
Qed.
End LabelIndex.

Lemma extract_labels_mnist (paths : list string) :
  extract_labels "mnist" paths = ok (mnist_label <$> paths).
Proof. reflexivity. Qed.

Lemma extract_labels_chinese (paths : list string) :
  extract_labels "chinese" paths
  = ok ((λ p, after_last "_" (before_first "." (pathlib.name (pathlib.Path p))))
          <$> paths).
Proof.
  cbn. apply mapM_ok_fmap. intros p _. apply label_of_name_cuts.
Qed.

(** For a supported mode the extractor returns one label per path. *)
Lemma extract_labels_supported (input_type : string) (paths : list string) :
  input_type = "mnist" ∨ input_type = "chinese" →
  ∃ all_labels, extract_labels input_type paths = ok all_labels
                ∧ length all_labels = length paths.
Proof.
  intros [-> | ->]; eexists.
  - split; [apply extract_labels_mnist|]. by rewrite length_fmap.
  - split; [apply extract_labels_chinese|]. by rewrite length_fmap.
Qed.

(** Lines 75-83 succeed for a supported mode, whatever order line 81
    lists the labels in, and every code is a position in that listing. *)
Lemma label_stage_ok (input_type : string) (paths all_labels labels : list string) :
  extract_labels input_type paths = ok all_labels →
  set_listing all_labels labels →
  ∃ codes, label_stage input_type paths labels
           = ok (make_label_index labels, codes)
           ∧ Forall2 (λ l c, labels !! c = Some l) all_labels codes.
Proof.
  intros He Hl. unfold label_stage. rewrite He. cbn.
  destruct (encode_labels_ok labels all_labels) as (codes & Hc & HF).
  { by eapply set_listing_NoDup. }
  { intros l. by rewrite (set_listing_elem all_labels labels l Hl). }
  exists codes. rewrite Hc. done.
Qed.

(** ** C1: labels and their codes *)

(** C1, as stated, fails: a label can be the empty string.  In mode
    [chinese] the file [img_.png] gets the label [""], and so does in
    mode [mnist] a file that lies directly under the root; the run
    accepts both and gives the empty label the code 0. *)
Lemma empty_label_counterexample :
  label_stage "chinese" ["/data/img_.png"] [EmptyString]
  = ok ([(EmptyString, 0)], [0])
  ∧ set_listing [EmptyString] [EmptyString]
  ∧ extract_labels "chinese" ["/data/img_.png"] = ok [EmptyString]
  ∧ extract_labels "mnist" ["/1.png"] = ok [EmptyString].
Proof.
  split; [reflexivity|]. split; [|split; reflexivity].
  unfold set_listing. by vm_compute.
Qed.

(** C1, amended: for every supported [input_type] and all input paths
    the extractor returns one label per path; whatever order the set of
    labels is listed in, every image's integer label lies in
    [0, num_classes), where [num_classes] is the number of distinct
    label strings and the size of the label index; and the label of a
    path is non-empty exactly when the path is [labelled]: in mode
    [mnist] the file has a named parent directory, in mode [chinese]
    the part of the file name before its first dot is non-empty and
    does not end in an underscore. *)
Theorem labels_in_range (input_type : string) (paths : list string) :
  input_type = "mnist" ∨ input_type = "chinese" →
  ∃ all_labels,
    extract_labels input_type paths = ok all_labels
    ∧ length all_labels = length paths
    ∧ Forall2 (λ path l, l ≠ EmptyString ↔ labelled input_type path)
              paths all_labels
    ∧ ∀ labels, set_listing all_labels labels →
        ∃ codes,
          label_stage input_type paths labels
          = ok (make_label_index labels, codes)
          ∧ PyDict.len (make_label_index labels) = num_classes all_labels
          ∧ length codes = length paths
          ∧ Forall (λ c, c < num_classes all_labels) codes.
Proof.
  intros Hmode.
  destruct (extract_labels_supported input_type paths Hmode)
    as (all_labels & He & Hlen).
  exists all_labels. split; [done|]. split; [done|]. split.
  - destruct Hmode as [-> | ->].
    + rewrite extract_labels_mnist in He. injection He as <-.
      apply Forall2_fmap_r, Forall_Forall2_diag, Forall_forall.
      intros path _. apply mnist_label_nonempty.
    + rewrite extract_labels_chinese in He. injection He as <-.
      apply Forall2_fmap_r, Forall_Forall2_diag, Forall_forall.
      intros path _. unfold labelled. cbn.
      pose proof (after_last_empty "_"
        (before_first "." (pathlib.name (pathlib.Path path)))) as Hempty.
      split.
      * intros Hne. split.
        -- intros Hs. apply Hne, Hempty. by left.
        -- destruct (Py.endswith _ _) eqn:E; [|done].
           exfalso. apply Hne, Hempty. by right.
      * intros [Hs He] Hl. apply Hempty in Hl as [?|Hl]; [done|].
        by rewrite Hl in He.
  - intros labels Hl.
    destruct (label_stage_ok _ _ _ _ He Hl) as (codes & Hs & HF).
    pose proof (set_listing_NoDup _ _ Hl) as Hnd.
    pose proof (set_listing_length _ _ Hl) as Hn.
    exists codes. split; [done|]. split; [by rewrite len_label_index|].
    split; [by rewrite <- (Forall2_length _ _ _ HF)|].
    rewrite <- Hn. eapply Forall2_Forall_r; [exact HF|].
    apply Forall_forall. intros l _ c Hc. by eapply lookup_lt_Some.
Qed.

Lemma labels_in_range_witness :
  ∃ all_labels,
    extract_labels "chinese" ["/d/img_001_A.png"; "/d/img_.png"] = ok all_labels
    ∧ length all_labels = 2
    ∧ Forall2 (λ path l, l ≠ EmptyString ↔ labelled "chinese" path)
              ["/d/img_001_A.png"; "/d/img_.png"] all_labels
    ∧ ∀ labels, set_listing all_labels labels →
        ∃ codes,
          label_stage "chinese" ["/d/img_001_A.png"; "/d/img_.png"] labels
          = ok (make_label_index labels, codes)
          ∧ PyDict.len (make_label_index labels) = num_classes all_labels
          ∧ length codes = 2
          ∧ Forall (λ c, c < num_classes all_labels) codes.
Proof.
  apply (labels_in_range "chinese" ["/d/img_001_A.png"; "/d/img_.png"]).
  right. reflexivity.
Defined.

(** ** C2: mode [mnist] *)

Lemma listing_of_two (a b : string) (labels : list string) :
  a ≠ b → set_listing [a; b] labels → labels = [a; b] ∨ labels = [b; a].
Proof.
  intros Hab Hl. apply Permutation_length_2_inv.
  symmetry. etrans; [exact Hl|]. apply elements_list_to_set.
  apply NoDup_cons. split; [|apply NoDup_singleton].
  by rewrite list_elem_of_singleton.
Qed.

(** C2: in mode [mnist] the label of a file [dir/d/f] is the name [d] of
    the directory the file lies in, for every list of such paths; and
    the two files [images/catA/1.png] and [images/catB/2.png] get the
    labels [catA] and [catB], which the label index maps one-to-one
    onto 0 and 1, in one of the two possible orders. *)
Theorem mnist_label_is_parent_name :
  (∀ paths ds : list string,
     Forall2 (λ path d, ∃ dir f, component d ∧ component f
                                 ∧ path = dir +:+ "/" +:+ d +:+ "/" +:+ f)
             paths ds →
     extract_labels "mnist" paths = ok ds)
  ∧ extract_labels "mnist" ["images/catA/1.png"; "images/catB/2.png"]
    = ok ["catA"; "catB"]
  ∧ ∀ labels, set_listing ["catA"; "catB"] labels →
      label_stage "mnist" ["images/catA/1.png"; "images/catB/2.png"] labels
      = ok ([("catA", 0); ("catB", 1)], [0; 1])
      ∨ label_stage "mnist" ["images/catA/1.png"; "images/catB/2.png"] labels
        = ok ([("catB", 0); ("catA", 1)], [1; 0]).
Proof.
  split; [|split; [reflexivity|]].
  - intros paths ds HF. rewrite extract_labels_mnist. f_equal.
    induction HF as [|path d paths ds (dir & f & Hd & Hf & ->) _ IH];
      [done|].
    cbn. by rewrite IH, mnist_label_join.
  - intros labels Hl.
    apply listing_of_two in Hl as [-> | ->]; [by left|by right|done].
Qed.

Lemma mnist_label_is_parent_name_witness :
  extract_labels "mnist" ["/kqi/input/images/7/0001.png"] = ok ["7"]
  ∧ (label_stage "mnist" ["images/catA/1.png"; "images/catB/2.png"]
                 ["catB"; "catA"]
     = ok ([("catA", 0); ("catB", 1)], [0; 1])
     ∨ label_stage "mnist" ["images/catA/1.png"; "images/catB/2.png"]
                   ["catB"; "catA"]
       = ok ([("catB", 0); ("catA", 1)], [1; 0])).
Proof.
  split.
  - apply (proj1 mnist_label_is_parent_name
             ["/kqi/input/images/7/0001.png"] ["7"]).
    constructor; [|constructor].
    exists "/kqi/input/images", "0001.png".
    split; [split; reflexivity|]. split; [split; reflexivity|reflexivity].
  - apply (proj2 (proj2 mnist_label_is_parent_name) ["catB"; "catA"]).
    unfold set_listing. vm_compute. apply perm_swap.
Defined.

(** ** C3 and C10: mode [chinese] *)

Lemma append_assoc (s t u : string) : (s +:+ t) +:+ u = s +:+ t +:+ u.
Proof.
  induction s as [|a s IH]; [done|]. rewrite !append_cons. by rewrite IH.
Qed.

Lemma append_empty_r (s : string) : s +:+ EmptyString = s.
Proof. induction s as [|a s IH]; [done|]. rewrite append_cons. by rewrite IH. Qed.

(** C3, as stated, fails when an underscore follows the first dot of the
    file name: for [a_b.c_d.png] the source returns [b], while nothing
    lies between the last underscore and the first dot of that name, and
    the text after its last underscore and before the next dot is [d]. *)
Lemma chinese_label_counterexample :
  chinese_label "/data/a_b.c_d.png" = ok "b"
  ∧ pathlib.name (pathlib.Path "/data/a_b.c_d.png") = "a_b.c_d.png"
  ∧ label_between "a_b.c_d.png" = None
  ∧ label_after_then_before "a_b.c_d.png" = Some "d".
Proof. repeat split; reflexivity. Qed.

(** C3, amended: in mode [chinese] the label of every path is what
    follows the last underscore within the part of the file name that
    precedes its first dot (underscores after the first dot play no
    role): a file name [pre_s] or [pre_s.ext], where [pre] and [s] have
    no dot and [s] has no underscore, gets the label [s]; in particular
    [img_001_A.png] and [img_002_B.png] get [A] and [B]. *)
Theorem chinese_label_cuts :
  (∀ path : string,
     chinese_label path
     = ok (after_last "_" (before_first "." (pathlib.name (pathlib.Path path)))))
  ∧ (∀ path pre s rest : string,
       pathlib.name (pathlib.Path path) = pre +:+ "_" +:+ s +:+ rest →
       Py.contains "." pre = false → Py.contains "." s = false →
       Py.contains "_" s = false →
       rest = EmptyString ∨ Py.startswith "." rest = true →
       chinese_label path = ok s)
  ∧ extract_labels "chinese" ["img_001_A.png"; "img_002_B.png"]
    = ok ["A"; "B"].
Proof.
  split; [|split; [|reflexivity]].
  - intros path. apply label_of_name_cuts.
  - intros path pre s rest Hname Hpre Hs Hus Hrest.
    unfold chinese_label. rewrite label_of_name_cuts, Hname. f_equal.
    assert (before_first "." (pre +:+ "_" +:+ s +:+ rest) = pre +:+ "_" +:+ s)
      as ->.
    { assert (Py.contains "." (pre +:+ "_" +:+ s) = false) as Hstem.
      { rewrite contains_app, Hpre. change ("_" +:+ s) with (String "_" s).
        cbn. by rewrite Hs. }
      destruct Hrest as [-> | Hdot].
      - rewrite append_empty_r. by apply before_first_no_sep.
      - destruct rest as [|a rest]; [done|]. cbn in Hdot.
        apply Ascii.eqb_eq in Hdot as ->.
        change (pre +:+ "_" +:+ s +:+ String "." rest)
          with (pre +:+ (String "_" s) +:+ String "." rest).
        rewrite <- append_assoc. by apply before_first_app. }
    change ("_" +:+ s) with (String "_" s). by apply after_last_app.
Qed.

Lemma chinese_label_cuts_witness :
  chinese_label "/kqi/input/images/img_001_A.png" = ok "A".
Proof.
  apply (proj1 (proj2 chinese_label_cuts)
           "/kqi/input/images/img_001_A.png" "img_001" "A" ".png");
    try reflexivity.
  right. reflexivity.
Defined.

(** C10: in mode [chinese], when the part of the file name before its
    first dot has no underscore, the label is that whole part, and the
    extraction does not fail; [abc.png] gets the label [abc]. *)
Theorem chinese_label_without_underscore :
  (∀ path : string,
     Py.contains "_" (before_first "." (pathlib.name (pathlib.Path path)))
     = false →
     chinese_label path
     = ok (before_first "." (pathlib.name (pathlib.Path path))))
  ∧ chinese_label "abc.png" = ok "abc"
  ∧ extract_labels "chinese" ["abc.png"] = ok ["abc"].
Proof.
  split; [|split; reflexivity].
  intros path Hus. unfold chinese_label.
  by rewrite label_of_name_cuts, after_last_no_sep.
Qed.

Lemma chinese_label_without_underscore_witness :
  chinese_label "/kqi/input/images/abc.tar.gz" = ok "abc".
Proof.
  apply (proj1 chinese_label_without_underscore
           "/kqi/input/images/abc.tar.gz").
  reflexivity.
Defined.

(** ** C4: an unrecognized mode *)

(** C4: with an [input_type] other than [mnist] and [chinese] no branch
    binds [all_labels]; line 81 then raises [UnboundLocalError], so the
    label stage produces no labels and the run ends in an error: the
    error of a file that fails to load, or else that
    [UnboundLocalError]. *)
Theorem unrecognized_input_type_fails {G : RNG} {U : UnicodeData}
    {Image : Type} (imread : string → result Image)
    (fit_predict : keras.FitCall Image → list Image → list (list Q))
    (input_type : string) (paths labels : list string) (global : rng_state) :
  input_type ≠ "mnist" → input_type ≠ "chinese" →
  extract_labels input_type paths = raise (UnboundLocalError "all_labels")
  ∧ label_stage input_type paths labels
    = raise (UnboundLocalError "all_labels")
  ∧ (∃ e, train imread fit_predict input_type paths labels global = raise e)
  ∧ (is_ok (mapM imread paths) = true →
     train imread fit_predict input_type paths labels global
     = raise (UnboundLocalError "all_labels")).
Proof.
  intros Hm Hc.
  assert (extract_labels input_type paths
          = raise (UnboundLocalError "all_labels")) as He.
  { unfold extract_labels.
    by rewrite (proj2 (String.eqb_neq _ _) Hm), (proj2 (String.eqb_neq _ _) Hc). }
  assert (label_stage input_type paths labels
          = raise (UnboundLocalError "all_labels")) as Hs.
  { unfold label_stage. by rewrite He. }
  split; [done|]. split; [done|].
  unfold train. rewrite Hs.
  destruct (mapM imread paths) as [all_images|e]; cbn;
    (split; [by eexists|done]).
Qed.

Lemma unrecognized_input_type_fails_witness :
  extract_labels "cifar" ["/kqi/input/images/7/0001.png"]
  = raise (UnboundLocalError "all_labels")
  ∧ label_stage "cifar" ["/kqi/input/images/7/0001.png"] ["7"]
    = raise (UnboundLocalError "all_labels")
  ∧ (∃ e, train (G := rotate_rng) (U := ascii_table) (λ path, ok path)
                modulo_network
                "cifar" ["/kqi/input/images/7/0001.png"] ["7"] 0
          = raise e)
  ∧ (is_ok (mapM (λ path, ok path) ["/kqi/input/images/7/0001.png"]) = true →
     train (G := rotate_rng) (U := ascii_table) (λ path, ok path)
           modulo_network
           "cifar" ["/kqi/input/images/7/0001.png"] ["7"] 0
     = raise (UnboundLocalError "all_labels")).
Proof.
  apply (unrecognized_input_type_fails (G := rotate_rng) (U := ascii_table));
    discriminate.
Defined.

(** ** The dataset splitter *)

Lemma ceil_033 (n : nat) :
  Z.to_nat (Qceiling ((33 # 100) * inject_Z (Z.of_nat n))) = (33 * n + 99) / 100.
Proof.
  unfold Qceiling, Qfloor, Qopp, Qmult, inject_Z. cbn [Qnum Qden].
  change (Z.pos (100 * 1)) with 100%Z.
  pose proof (Z.div_mod (- (33 * Z.of_nat n)) 100 ltac:(lia)).
  pose proof (Z.mod_pos_bound (- (33 * Z.of_nat n)) 100 ltac:(lia)).
  apply Nat2Z.inj. rewrite Nat2Z.inj_div, Z2Nat.id by lia.
  replace (Z.of_nat (33 * n + 99)) with (33 * Z.of_nat n + 99)%Z by lia.
  pose proof (Z.div_mod (33 * Z.of_nat n + 99) 100 ltac:(lia)).
  pose proof (Z.mod_pos_bound (33 * Z.of_nat n + 99) 100 ltac:(lia)).
  lia.
Qed.

(** The test count is the ceiling of [0.33 * n]. *)
Lemma test_count_bounds (n : nat) :
  33 * n ≤ 100 * ((33 * n + 99) / 100) < 33 * n + 100.
Proof.
  pose proof (Nat.div_mod_eq (33 * n + 99) 100).
  pose proof (Nat.mod_upper_bound (33 * n + 99) 100). lia.
Qed.

Lemma validate_shuffle_split_033 (n : nat) :
  2 ≤ n →
  sklearn.validate_shuffle_split n (33 # 100)
  = ok (n - (33 * n + 99) / 100, (33 * n + 99) / 100).
Proof.
  intros Hn. unfold sklearn.validate_shuffle_split.
  change (Qle_bool (33 # 100) 0 || Qle_bool 1 (33 # 100)) with false.
  cbv iota. rewrite ceil_033.
  pose proof (test_count_bounds n).
  destruct (Nat.eqb_spec (n - (33 * n + 99) / 100) 0); [lia|done].
Qed.

Lemma validate_shuffle_split_033_small (n : nat) :
  n ≤ 1 →
  sklearn.validate_shuffle_split n (33 # 100)
  = raise (ValueError "the resulting train set will be empty").
Proof.
  intros Hn. by destruct n as [|[|n]]; [| |lia].
Qed.

Section TakeIndices.
Context {A : Type}.
Implicit Types (a xs : list A) (ind : list nat).

Lemma take_indices_ok a ind :
  Forall (λ i, i < length a) ind →
  ∃ xs, np.take_indices a ind = ok xs
        ∧ Forall2 (λ i x, a !! i = Some x) ind xs.
Proof.
  unfold np.take_indices.
  induction 1 as [|i ind Hi _ (xs & Hxs & HF)].
  - exists []. by split; [|constructor].
  - destruct (lookup_lt_is_Some_2 a i Hi) as [x Hx].
    exists (x :: xs). split; [|by constructor].
    by rewrite mapM_cons, Hx, Hxs.
Qed.

Lemma take_indices_inv a ind xs :
  np.take_indices a ind = ok xs → Forall2 (λ i x, a !! i = Some x) ind xs.
Proof.
  unfold np.take_indices. revert xs.
  induction ind as [|i ind IH]; intros xs.
  - intros [= <-]. constructor.
  - rewrite mapM_cons. destruct (a !! i) as [x|] eqn:Hx; [|done].
    destruct (mapM _ ind) as [xs'|e] eqn:E; [|done].
    intros [= <-]. constructor; [done|]. by apply IH.
Qed.

Lemma lookups_fmap a ind xs :
  Forall2 (λ i x, a !! i = Some x) ind xs → (a !!.) <$> ind = Some <$> xs.
Proof. induction 1 as [|i x ind xs Hi _ IH]; cbn; [done|]. by rewrite Hi, IH. Qed.

Lemma lookups_all a : (a !!.) <$> seq 0 (length a) = Some <$> a.
Proof.
  induction a as [|x a IH] using rev_ind; [done|].
  rewrite length_app, Nat.add_comm. cbn [length Nat.add].
  rewrite seq_S, !fmap_app. cbn. f_equal.
  - rewrite <- IH. apply list_fmap_ext. intros i j Hj.
    apply lookup_seq in Hj as [-> Hlt]. by rewrite lookup_app_l.
  - rewrite lookup_app_r by lia. by rewrite Nat.sub_diag.
Qed.

(** Reading an array at a shuffled [range(len(a))] shuffles the array. *)
Lemma take_indices_perm a ind xs :
  ind ≡ₚ seq 0 (length a) →
  Forall2 (λ i x, a !! i = Some x) ind xs → xs ≡ₚ a.
Proof.
  intros Hp HF. apply lookups_fmap in HF.
  assert (Some <$> xs ≡ₚ Some <$> a) as Hs.
  { rewrite <- HF, <- lookups_all. by apply fmap_Permutation. }
  apply Permutation_map_inv in Hs as (zs & Hzs & Hp').
  apply (inj (fmap Some)) in Hzs as <-. by symmetry.
Qed.
End TakeIndices.

Lemma lookups_zip {A B} (X : list A) (y : list B) ind xs ys :
  Forall2 (λ i x, X !! i = Some x) ind xs →
  Forall2 (λ i v, y !! i = Some v) ind ys →
  Forall2 (λ i p, zip X y !! i = Some p) ind (zip xs ys).
Proof.
  intros HX. revert ys.
  induction HX as [|i x ind xs Hi _ IH]; intros ys Hy;
    inversion Hy as [|? v ? ys' Hv Hys]; subst; cbn; constructor.
  - rewrite lookup_zip_with, Hi. cbn. by rewrite Hv.
  - by apply IH.
Qed.

Section Splitter.
Context {G : RNG}.

Lemma split_indices_ok (n : nat) (random_state : option Z) (global : rng_state) :
  rng_lawful G → 2 ≤ n →
  ∃ train test,
    (sklearn.split_indices n (33 # 100) random_state global).1
    = ok (train, test)
    ∧ test ++ train ≡ₚ seq 0 n
    ∧ length test = (33 * n + 99) / 100.
Proof.
  intros Hlaw Hn. unfold sklearn.split_indices, sklearn.shuffle_split.
  rewrite validate_shuffle_split_033 by done.
  pose proof (Hlaw (sklearn.check_random_state random_state global) n) as Hp.
  destruct (permutation _ n) as [perm rng'] eqn:E. cbn in Hp. cbn [fst].
  pose proof (Permutation_length Hp) as Hlen. rewrite length_seq in Hlen.
  pose proof (test_count_bounds n).
  eexists _, _. split; [reflexivity|]. split.
  - rewrite (take_ge (drop _ perm)) by (rewrite length_drop; lia).
    by rewrite take_drop.
  - rewrite length_take. lia.
Qed.

(** With a seed the split does not read the process-wide generator. *)
Lemma split_indices_seeded (n : nat) (test_size : Q) (seed : Z)
    (g1 g2 : rng_state) :
  (sklearn.split_indices n test_size (Some seed) g1).1
  = (sklearn.split_indices n test_size (Some seed) g2).1.
Proof.
  unfold sklearn.split_indices.
  destruct (sklearn.validate_shuffle_split n test_size) as [[n_train n_test]|e];
    [|done].
  cbn [sklearn.check_random_state]. by destruct (sklearn.shuffle_split _ _ _ _).
Qed.

Lemma split_indices_seeded_state (n : nat) (test_size : Q) (seed : Z)
    (global : rng_state) :
  (sklearn.split_indices n test_size (Some seed) global).2 = global.
Proof.
  unfold sklearn.split_indices.
  destruct (sklearn.validate_shuffle_split n test_size) as [[n_train n_test]|e];
    [|done].
  by destruct (sklearn.shuffle_split _ _ _ _).
Qed.

Lemma train_test_split_fst {A B} (X : list A) (y : list B) (test_size : Q)
    (random_state : option Z) (global : rng_state) :
  length X = length y →
  (sklearn.train_test_split X y test_size random_state global).1
  = ('(train, test) ←
       (sklearn.split_indices (length X) test_size random_state global).1;
     X_train ← np.take_indices X train;
     X_test ← np.take_indices X test;
     y_train ← np.take_indices y train;
     y_test ← np.take_indices y test;
     mret (X_train, X_test, y_train, y_test)).
Proof.
  intros Hlen. unfold sklearn.train_test_split.
  rewrite (proj2 (Nat.eqb_eq _ _) Hlen). cbn [negb].
  by destruct (sklearn.split_indices _ _ _ _).
Qed.
Lemma split_arrays_ok {A B} (X : list A) (y : list B)
    (random_state : option Z) (global : rng_state) :
  rng_lawful G → length X = length y → 2 ≤ length X →
  ∃ train test X_train X_test y_train y_test,
    (sklearn.split_indices (length X) (33 # 100) random_state global).1
    = ok (train, test)
    ∧ (sklearn.train_test_split X y (33 # 100) random_state global).1
      = ok (X_train, X_test, y_train, y_test)
    ∧ test ++ train ≡ₚ seq 0 (length X)
    ∧ length test = (33 * length X + 99) / 100
    ∧ Forall2 (λ i x, X !! i = Some x) train X_train
    ∧ Forall2 (λ i x, X !! i = Some x) test X_test
    ∧ Forall2 (λ i v, y !! i = Some v) train y_train
    ∧ Forall2 (λ i v, y !! i = Some v) test y_test.
Proof.
  intros Hlaw Hlen Hn.
  destruct (split_indices_ok (length X) random_state global Hlaw Hn)
    as (train & test & Hsplit & Hperm & Htest).
  assert (Forall (λ i, i < length X) (test ++ train)) as Hlt.
  { apply Forall_forall. intros i Hi. rewrite Hperm in Hi.
    apply elem_of_seq in Hi. lia. }
  apply Forall_app in Hlt as [Hlt_test Hlt_train].
  destruct (take_indices_ok X train Hlt_train) as (X_train & EX1 & FX1).
  destruct (take_indices_ok X test Hlt_test) as (X_test & EX2 & FX2).
  rewrite Hlen in Hlt_train, Hlt_test.
  destruct (take_indices_ok y train Hlt_train) as (y_train & Ey1 & Fy1).
  destruct (take_indices_ok y test Hlt_test) as (y_test & Ey2 & Fy2).
  exists train, test, X_train, X_test, y_train, y_test.
  split; [done|]. split; [|done].
  rewrite train_test_split_fst by done. rewrite Hsplit. cbn.
  rewrite EX1. cbn. rewrite EX2. cbn. rewrite Ey1. cbn. by rewrite Ey2.
Qed.
End Splitter.

Lemma rotate_rng_lawful : rng_lawful rotate_rng.
Proof.
  intros s n. cbn. rewrite Permutation_app_comm. by rewrite take_drop.
Qed.

(** ** C5: the split is a partition *)

(** C5, as stated, fails for a sample set with one element: 0.33 of one
    sample rounds up to one test sample, which leaves no train sample,
    and the splitter refuses that; the run ends there. *)
Lemma single_sample_split_counterexample :
  (sklearn.train_test_split (G := rotate_rng)
     ["/kqi/input/images/7/0001.png"] [0] (33 # 100) (Some 0%Z) 0).1
  = raise (ValueError "the resulting train set will be empty")
  ∧ train (G := rotate_rng) (U := ascii_table) (λ path, ok path)
          modulo_network
          "mnist" ["/kqi/input/images/7/0001.png"] ["7"] 0
    = raise (ValueError "the resulting train set will be empty").
Proof. split; reflexivity. Qed.

(** C5, amended: for every sample set with at least two samples the
    splitter returns index lists [train] and [test] that have no index
    in common and together are a permutation of all positions; the
    returned (image, label) pairs are the pairs at those positions, so
    the train pairs and the test pairs together are a permutation of
    all pairs; and the test subset holds the ceiling of 0.33 times the
    number of samples.  A sample set with fewer than two samples is
    refused with a [ValueError]. *)
Theorem split_is_partition {G : RNG} {A B : Type} (X : list A) (y : list B)
    (random_state : option Z) (global : rng_state) :
  rng_lawful G → length X = length y →
  (2 ≤ length X →
   ∃ train test X_train X_test y_train y_test,
     (sklearn.split_indices (length X) (33 # 100) random_state global).1
     = ok (train, test)
     ∧ (sklearn.train_test_split X y (33 # 100) random_state global).1
       = ok (X_train, X_test, y_train, y_test)
     ∧ train ++ test ≡ₚ seq 0 (length X)
     ∧ (∀ i, i ∈ train → i ∉ test)
     ∧ length X_train = length y_train ∧ length X_test = length y_test
     ∧ Forall2 (λ i p, zip X y !! i = Some p) train (zip X_train y_train)
     ∧ Forall2 (λ i p, zip X y !! i = Some p) test (zip X_test y_test)
     ∧ zip X_train y_train ++ zip X_test y_test ≡ₚ zip X y
     ∧ 33 * length X ≤ 100 * length X_test < 33 * length X + 100)
  ∧ (length X < 2 →
     (sklearn.split_indices (length X) (33 # 100) random_state global).1
     = raise (ValueError "the resulting train set will be empty")
     ∧ (sklearn.train_test_split X y (33 # 100) random_state global).1
       = raise (ValueError "the resulting train set will be empty")).
Proof.
  intros Hlaw Hlen. split.
  - intros Hn.
    destruct (split_arrays_ok X y random_state global Hlaw Hlen Hn)
      as (train & test & X_train & X_test & y_train & y_test & Hsplit & Hret
          & Hperm & Htest & FX1 & FX2 & Fy1 & Fy2).
    exists train, test, X_train, X_test, y_train, y_test.
    pose proof (Forall2_length _ _ _ FX1) as LX1.
    pose proof (Forall2_length _ _ _ FX2) as LX2.
    pose proof (Forall2_length _ _ _ Fy1) as Ly1.
    pose proof (Forall2_length _ _ _ Fy2) as Ly2.
    pose proof (lookups_zip X y _ _ _ FX1 Fy1) as FZ1.
    pose proof (lookups_zip X y _ _ _ FX2 Fy2) as FZ2.
    assert (train ++ test ≡ₚ seq 0 (length X)) as Hperm'.
    { by rewrite Permutation_app_comm. }
    split; [done|]. split; [done|]. split; [done|]. split.
    { assert (NoDup (train ++ test)) as Hnd.
      { rewrite Hperm'. apply NoDup_seq. }
      apply NoDup_app in Hnd as (_ & Hdisj & _). exact Hdisj. }
    split; [lia|]. split; [lia|]. split; [done|]. split; [done|]. split.
    { apply (take_indices_perm (zip X y) (train ++ test)).
      - rewrite length_zip_with, <- Hlen, Nat.min_id. done.
      - by apply Forall2_app. }
    rewrite <- LX2, Htest. apply test_count_bounds.
  - intros Hn.
    assert ((sklearn.split_indices (length X) (33 # 100) random_state
                                   global).1
            = raise (ValueError "the resulting train set will be empty"))
      as Hidx.
    { unfold sklearn.split_indices.
      by rewrite validate_shuffle_split_033_small by lia. }
    split; [done|]. rewrite train_test_split_fst by done. by rewrite Hidx.
Qed.

Lemma split_is_partition_witness :
  (∃ train test X_train X_test y_train y_test,
     (sklearn.train_test_split (G := rotate_rng)
        ["a.png"; "b.png"; "c.png"] [0; 1; 0] (33 # 100) (Some 0%Z) 5).1
     = ok (X_train, X_test, y_train, y_test)
     ∧ train ++ test ≡ₚ seq 0 3
     ∧ (∀ i, i ∈ train → i ∉ test)
     ∧ zip X_train y_train ++ zip X_test y_test
       ≡ₚ zip ["a.png"; "b.png"; "c.png"] [0; 1; 0])
  ∧ (sklearn.train_test_split (G := rotate_rng)
       ["a.png"] [0] (33 # 100) (Some 0%Z) 5).1
    = raise (ValueError "the resulting train set will be empty").
Proof.
  split.
  - destruct (proj1 (split_is_partition (G := rotate_rng)
                       ["a.png"; "b.png"; "c.png"] [0; 1; 0] (Some 0%Z) 5
                       rotate_rng_lawful eq_refl) ltac:(cbn; lia))
      as (train & test & X_train & X_test & y_train & y_test & _ & Hret
          & Hperm & Hdisj & _ & _ & _ & _ & Hpairs & _).
    by exists train, test, X_train, X_test, y_train, y_test.
  - apply (proj2 (split_is_partition (G := rotate_rng)
                    ["a.png"] [0] (Some 0%Z) 5 rotate_rng_lawful eq_refl)).
    cbn. lia.
Defined.

(** ** C6: the split is deterministic *)

(** Without a seed the split does depend on the state the process-wide
    generator is in. *)
Lemma unseeded_split_depends_on_state :
  (sklearn.train_test_split (G := rotate_rng)
     ["a.png"; "b.png"; "c.png"] [0; 1; 0] (33 # 100) None 0).1
  ≠ (sklearn.train_test_split (G := rotate_rng)
       ["a.png"; "b.png"; "c.png"] [0; 1; 0] (33 # 100) None 1).1.
Proof. vm_compute. discriminate. Qed.

(** C6: with a seed given, as on lines 93-95, the split of given images
    and labels is the same in every run: it does not depend on the state
    the process-wide random generator is in when the splitter is called,
    neither the index lists nor the four returned arrays, and it leaves
    that state as it was. *)
Theorem split_deterministic {G : RNG} {A B : Type} (X : list A) (y : list B)
    (test_size : Q) (seed : Z) (g1 g2 : rng_state) :
  (sklearn.train_test_split X y test_size (Some seed) g1).1
  = (sklearn.train_test_split X y test_size (Some seed) g2).1
  ∧ (sklearn.split_indices (length X) test_size (Some seed) g1).1
    = (sklearn.split_indices (length X) test_size (Some seed) g2).1
  ∧ (sklearn.train_test_split X y test_size (Some seed) g1).2 = g1.
Proof.
  split; [|split; [apply split_indices_seeded|]].
  - unfold sklearn.train_test_split.
    destruct (negb (length X =? length y)); [done|].
    pose proof (split_indices_seeded (length X) test_size seed g1 g2) as H.
    destruct (sklearn.split_indices _ _ _ g1) as [r1 s1].
    destruct (sklearn.split_indices _ _ _ g2) as [r2 s2].
    cbn in H. by subst.
  - unfold sklearn.train_test_split.
    destruct (negb (length X =? length y)); [done|].
    pose proof (split_indices_seeded_state (length X) test_size seed g1) as H.
    by destruct (sklearn.split_indices _ _ _ g1) as [r1 s1].
Qed.

(** ** The stages of a run that returns *)

Lemma train_ok_inv {G : RNG} {U : UnicodeData} {Image : Type}
    (imread : string → result Image)
    (fit_predict : keras.FitCall Image → list Image → list (list Q))
    (input_type : string) (paths labels : list string) (global : rng_state)
    (run : Run Image) :
  train imread fit_predict input_type paths labels global = ok run →
  ∃ all_images label_index all_labels X_train X_test y_train y_test y_pred,
    mapM imread paths = ok all_images
    ∧ label_stage input_type paths labels = ok (label_index, all_labels)
    ∧ (sklearn.train_test_split all_images all_labels (33 # 100)
                                (Some 0%Z) global).1
      = ok (X_train, X_test, y_train, y_test)
    ∧ np.argmax_rows
        (fit_predict (fit_call label_index X_train X_test y_train y_test)
                     X_test)
      = ok y_pred
    ∧ confusion_frame label_index y_test y_pred = ok (run_confusion_matrix run)
    ∧ report_wrong_pictures label_index X_test y_test y_pred
      = ok (run_summaries run)
    ∧ run_label_index run = label_index
    ∧ run_train run = (X_train, y_train)
    ∧ run_test run = (X_test, y_test)
    ∧ run_steps_per_epoch run = steps_per_epoch X_train
    ∧ 0 < steps_per_epoch X_train
    ∧ run_csv run = pandas.to_csv (run_confusion_matrix run).
Proof.
  unfold train.
  destruct (mapM imread paths) as [all_images|e] eqn:E1; [|done].
  destruct (label_stage _ _ _) as [[label_index all_labels]|e] eqn:E2;
    [|done].
  cbn.
  destruct (sklearn.train_test_split _ _ _ _ _).1
    as [[[[X_train X_test] y_train] y_test]|e] eqn:E3; [|done].
  cbn. unfold keras.fit_generator.
  cbn [fit_call keras.fit_steps_per_epoch].
  destruct (Nat.eqb_spec (steps_per_epoch X_train) 0) as [|Hsteps]; [done|].
  cbn.
  destruct (np.argmax_rows _) as [y_pred|e] eqn:E4; [|done]. cbn.
  destruct (confusion_frame _ _ _) as [df|e] eqn:E5; [|done]. cbn.
  destruct (report_wrong_pictures _ _ _ _) as [summaries|e] eqn:E6; [|done].
  cbn. intros [= <-]. cbn [run_label_index run_train run_test
    run_steps_per_epoch run_confusion_matrix run_csv run_summaries].
  exists all_images, label_index, all_labels, X_train, X_test, y_train,
         y_test, y_pred.
  repeat split; try done.
  unfold steps_per_epoch, batch_size in *. cbn in *. lia.
Qed.

(** ** C9: the length of an epoch *)

Section Batches.
Implicit Types (index_array : list nat) (batch_size : nat).




Lemma slice_take {A} (a : list A) (j : nat) : np.slice a 0 j = take j a.
Proof. unfold np.slice. by rewrite drop_0, Nat.sub_0_r. Qed.


End Batches.



(** ** Predictions *)

Lemma argmax_from_lt (best : Q) (best_i i : nat) (row : list Q) :
  best_i < i → np.argmax_from best best_i i row < i + length row.
Proof.
  revert best best_i i. induction row as [|x row IH]; intros best best_i i Hi.
  - cbn. lia.
  - cbn. destruct (Qle_bool x best).
    + specialize (IH best best_i (S i)). lia.
    + specialize (IH x i (S i)). lia.
Qed.

Lemma argmax_ok (row : list Q) :
  row ≠ [] → ∃ c, np.argmax row = ok c ∧ c < length row.
Proof.
  destruct row as [|x row]; [done|]. intros _. eexists. split; [done|].
  apply (argmax_from_lt x 0 1 row). lia.
Qed.

Lemma argmax_rows_ok (probs : list (list Q)) (n k : nat) :
  has_shape probs n k → 0 < k →
  ∃ y_pred, np.argmax_rows probs = ok y_pred
            ∧ length y_pred = n ∧ Forall (λ c, c < k) y_pred.
Proof.
  intros [<- Hrows] Hk. unfold np.argmax_rows.
  induction Hrows as [|row probs Hrow _ (y_pred & Hy & Hlen & Hlt)].
  - exists []. by repeat split.
  - destruct (argmax_ok row) as (c & Hc & Hclt).
    { intros ->. cbn in Hrow. lia. }
    exists (c :: y_pred). rewrite mapM_cons, Hc, Hy.
    repeat split; [by cbn; rewrite Hlen|]. constructor; [lia|done].
Qed.

(** ** Sums over a matrix *)

Lemma sum_list_fmap {A} (f : A → nat) (l : list A) :
  sum_list (f <$> l) = sum_list_with f l.
Proof. induction l as [|x l IH]; cbn; [done|]. by rewrite IH. Qed.

Lemma sum_list_with_ext {A} (f g : A → nat) (l : list A) :
  (∀ x, x ∈ l → f x = g x) → sum_list_with f l = sum_list_with g l.
Proof.
  induction l as [|x l IH]; intros H; cbn; [done|].
  rewrite (H x) by left. rewrite IH; [done|]. intros; apply H; by right.
Qed.

Lemma sum_list_with_plus {A} (f g : A → nat) (l : list A) :
  sum_list_with (λ x, f x + g x) l = sum_list_with f l + sum_list_with g l.
Proof. induction l as [|x l IH]; cbn; [done|]. rewrite IH. lia. Qed.

Lemma sum_list_with_zero {A} (l : list A) : sum_list_with (λ _, 0) l = 0.
Proof. induction l as [|x l IH]; cbn; done. Qed.

(** Over a range, the indicator of one position sums to its weight. *)
Lemma sum_indicator (o : option nat) (c start n p : nat) :
  o = Some p → start ≤ p < start + n →
  sum_list_with (λ j, if bool_decide (o = Some j) then c else 0) (seq start n)
  = c.
Proof.
  intros ->. revert start. induction n as [|n IH]; intros start Hp; [lia|].
  cbn. destruct (decide (p = start)) as [->|Hne].
  - rewrite bool_decide_eq_true_2 by done.
    rewrite (sum_list_with_ext _ (λ _, 0)); [rewrite sum_list_with_zero; lia|].
    intros j Hj. apply elem_of_seq in Hj.
    rewrite bool_decide_eq_false_2; [done|]. intros [= ->]. lia.
  - rewrite bool_decide_eq_false_2 by (intros [= ->]; done).
    rewrite IH by lia. done.
Qed.

Lemma matrix_sum_table (f : nat → nat → nat) (k : nat) :
  matrix_sum ((λ i, (λ j, f i j) <$> seq 0 k) <$> seq 0 k)
  = sum_list_with (λ i, sum_list_with (λ j, f i j) (seq 0 k)) (seq 0 k).
Proof.
  unfold matrix_sum. rewrite <- list_fmap_compose, sum_list_fmap.
  apply sum_list_with_ext. intros i _. cbn. apply sum_list_fmap.
Qed.

(** ** The confusion matrix *)

Section Confusion.
Implicit Types (to_ind : PyDict.dict nat nat) (pairs : list (nat * nat)).

Lemma cell_count_cons to_ind t p pairs i j :
  sklearn.cell_count to_ind ((t, p) :: pairs) i j
  = (if bool_decide (PyDict.get p to_ind = Some j)
     then if bool_decide (PyDict.get t to_ind = Some i) then 1 else 0
     else 0)
    + sklearn.cell_count to_ind pairs i j.
Proof.
  unfold sklearn.cell_count. cbn.
  destruct (bool_decide (PyDict.get t to_ind = Some i));
    destruct (bool_decide (PyDict.get p to_ind = Some j)); done.
Qed.

(** Every sample whose two labels are known is counted once. *)
Lemma cell_count_total to_ind pairs (k : nat) :
  Forall (λ tp, ∃ ti pj, PyDict.get tp.1 to_ind = Some ti ∧ ti < k
                         ∧ PyDict.get tp.2 to_ind = Some pj ∧ pj < k) pairs →
  sum_list_with
    (λ i, sum_list_with (λ j, sklearn.cell_count to_ind pairs i j) (seq 0 k))
    (seq 0 k)
  = length pairs.
Proof.
  induction 1 as [|[t p] pairs (ti & pj & Ht & Hti & Hp & Hpj) _ IH].
  - cbn. rewrite (sum_list_with_ext _ (λ _, 0)); [apply sum_list_with_zero|].
    intros i _. apply sum_list_with_zero.
  - cbn [length]. rewrite <- IH. cbn [fst snd] in *.
    rewrite (sum_list_with_ext _
      (λ i, (if bool_decide (PyDict.get t to_ind = Some i) then 1 else 0)
            + sum_list_with (λ j, sklearn.cell_count to_ind pairs i j)
                            (seq 0 k))).
    + rewrite sum_list_with_plus.
      rewrite (sum_indicator _ 1 0 k ti) by (done || lia). done.
    + intros i _.
      rewrite (sum_list_with_ext _ _ _
        (λ j _, cell_count_cons to_ind t p pairs i j)).
      rewrite sum_list_with_plus. f_equal.
      apply (sum_indicator _ _ 0 k pj); [done|lia].
Qed.

Lemma label_to_ind_range (k t : nat) :
  PyDict.get t (sklearn.label_to_ind (seq 0 k))
  = if decide (t < k) then Some t else None.
Proof.
  unfold sklearn.label_to_ind.
  rewrite (comprehension (seq 0 k) (NoDup_seq 0 k)).
  destruct (decide (t < k)) as [Hlt|Hge].
  - rewrite (get_zip_seq (seq 0 k) 0 t t (NoDup_seq 0 k));
      [done|by apply lookup_seq_lt].
  - apply get_None. rewrite keys_zip_seq, elem_of_seq. lia.
Qed.

Lemma cell_count_pairs (k : nat) (y_true y_pred : list nat) (i j : nat) :
  i < k → j < k →
  sklearn.cell_count (sklearn.label_to_ind (seq 0 k)) (zip y_true y_pred) i j
  = count_pairs y_true y_pred i j.
Proof.
  intros Hi Hj. unfold sklearn.cell_count, count_pairs.
  induction (zip y_true y_pred) as [|[t p] pairs IH]; [done|].
  cbn [List.filter]. rewrite filter_cons, !label_to_ind_range.
  destruct (decide ((t, p) = (i, j))) as [[= -> ->]|Hne].
  - rewrite !decide_True by done. rewrite !bool_decide_eq_true_2 by done.
    cbn. by rewrite IH.
  - assert (bool_decide ((if decide (t < k) then Some t else None) = Some i)
            && bool_decide ((if decide (p < k) then Some p else None) = Some j)
            = false) as ->; [|done].
    apply andb_false_iff.
    destruct (decide (t = i)) as [->|Hti].
    + right. apply bool_decide_eq_false_2.
      destruct (decide (p < k)); [|done]. intros [= ->]. done.
    + left. apply bool_decide_eq_false_2.
      destruct (decide (t < k)); [|done]. intros [= ->]. done.
Qed.

Lemma confusion_matrix_ok (k : nat) (y_true y_pred : list nat) :
  0 < k → length y_pred = length y_true →
  Forall (λ c, c < k) y_true → Forall (λ c, c < k) y_pred →
  ∃ cm, sklearn.confusion_matrix y_true y_pred (seq 0 k) = ok cm
        ∧ length cm = k ∧ Forall (λ row, length row = k) cm
        ∧ matrix_sum cm = length y_true
        ∧ ∀ i j, i < k → j < k →
            entry cm i j = Some (count_pairs y_true y_pred i j).
Proof.
  intros Hk Hlen Ht Hp. unfold sklearn.confusion_matrix.
  rewrite Hlen, Nat.eqb_refl, length_seq. cbn [negb].
  destruct (Nat.eqb_spec k 0) as [->|_]; [lia|].
  destruct y_true as [|t y_true].
  { destruct y_pred; [|done]. cbn [length Nat.eqb]. eexists.
    split; [done|]. rewrite length_replicate. split; [done|]. split.
    - apply Forall_replicate, length_replicate.
    - split.
      + unfold matrix_sum. rewrite fmap_replicate, sum_list_replicate.
        rewrite sum_list_replicate. cbn. lia.
      + intros i j Hi Hj. unfold entry.
        rewrite lookup_replicate_2 by done. cbn.
        by rewrite lookup_replicate_2. }
  cbn [length Nat.eqb].
  destruct (forallb _ (seq 0 k)) eqn:Hnone.
  { exfalso. rewrite forallb_forall in Hnone.
    inversion_clear Ht as [|? ? Htk _].
    specialize (Hnone t). rewrite <- list_elem_of_In, elem_of_seq in Hnone.
    rewrite bool_decide_eq_true_2 in Hnone by left.
    discriminate Hnone. lia. }
  eexists. split; [done|].
  rewrite length_fmap, length_seq. split; [done|]. split.
  - apply Forall_fmap, Forall_forall. intros i _. cbn.
    by rewrite length_fmap, length_seq.
  - split.
    + rewrite matrix_sum_table, (cell_count_total _ _ k).
      * rewrite length_zip_with, Hlen, Nat.min_id. done.
      * apply Forall_forall. intros [t' p'] Hin.
        apply elem_of_zip_with in Hin as (? & ? & [= <- <-] & Hint & Hinp).
        rewrite Forall_forall in Ht, Hp.
        exists t', p'. cbn. rewrite !label_to_ind_range.
        rewrite !decide_True by auto. auto.
    + intros i j Hi Hj. unfold entry.
      rewrite list_lookup_fmap, lookup_seq_lt by done. cbn.
      rewrite list_lookup_fmap, lookup_seq_lt by done. cbn. f_equal.
      apply (cell_count_pairs k (t :: y_true) y_pred i j Hi Hj).
Qed.
End Confusion.

Lemma confusion_frame_ok (labels : list string) (y_test y_pred : list nat) :
  NoDup labels → 0 < length labels → length y_pred = length y_test →
  Forall (λ c, c < length labels) y_test →
  Forall (λ c, c < length labels) y_pred →
  ∃ df, confusion_frame (make_label_index labels) y_test y_pred = ok df
        ∧ pandas.columns df = labels ∧ pandas.index df = labels
        ∧ length (pandas.data df) = length labels
        ∧ Forall (λ row, length row = length labels) (pandas.data df)
        ∧ matrix_sum (pandas.data df) = length y_test
        ∧ ∀ i j, i < length labels → j < length labels →
            entry (pandas.data df) i j = Some (count_pairs y_test y_pred i j).
Proof.
  intros Hnd Hk Hlen Ht Hp. unfold confusion_frame.
  rewrite values_label_index, keys_label_index by done.
  destruct (confusion_matrix_ok (length labels) y_test y_pred Hk Hlen Ht Hp)
    as (cm & -> & Hrows & Hcols & Hsum & Hentry).
  cbn. unfold pandas.DataFrame_of.
  rewrite Hrows, Nat.eqb_refl.
  assert (forallb (λ row, length row =? length labels) cm = true) as ->.
  { apply forallb_forall. intros row Hrow. apply Nat.eqb_eq.
    rewrite Forall_forall in Hcols. by apply Hcols, list_elem_of_In. }
  cbn. eexists. split; [done|]. by cbn.
Qed.

(** ** The report of wrongly classified pictures *)

Lemma mapM_Forall2 {A B} (f : A → result B) (R : A → B → Prop) (l : list A) :
  Forall (λ x, ∃ y, f x = ok y ∧ R x y) l →
  ∃ ys, mapM f l = ok ys ∧ Forall2 R l ys.
Proof.
  induction 1 as [|x l (y & Hy & HR) _ (ys & Hys & HF)].
  - exists []. by split; [|constructor].
  - exists (y :: ys). rewrite mapM_cons, Hy, Hys. by split; [|constructor].
Qed.

Lemma wrong_among_ok (y_pred y_test idxs : list nat) :
  length y_pred = length y_test → Forall (λ idx, idx < length y_pred) idxs →
  wrong_among y_pred y_test idxs
  = ok (filter (λ idx, y_pred !! idx ≠ y_test !! idx) idxs).
Proof.
  intros Hlen. induction 1 as [|idx idxs Hidx _ IH]; [done|].
  destruct (lookup_lt_is_Some_2 y_pred idx Hidx) as [p Hp].
  destruct (lookup_lt_is_Some_2 y_test idx ltac:(lia)) as [t Ht].
  cbn [wrong_among]. unfold np.item. rewrite Hp, Ht, IH, filter_cons.
  destruct (decide (p = t)) as [->|Hne].
  - rewrite decide_False by (rewrite Hp, Ht; by intros []).
    cbn. by rewrite Nat.eqb_refl.
  - rewrite decide_True by (rewrite Hp, Ht; congruence).
    cbn. by rewrite (proj2 (Nat.eqb_neq p t) Hne).
Qed.

Lemma wrong_pictures_idx_ok (y_pred y_test : list nat) :
  length y_pred = length y_test →
  wrong_pictures_idx y_pred y_test = ok (misclassified y_pred y_test).
Proof.
  intros Hlen. apply wrong_among_ok; [done|].
  apply Forall_forall. intros idx Hidx. apply elem_of_seq in Hidx. lia.
Qed.

Section KeysWithValue.
Implicit Types (labels : list string) (a : list nat).

Lemma keys_with_value_none labels a (idx c start : nat) :
  a !! idx = Some c → c < start →
  keys_with_value (zip labels (seq start (length labels))) a idx = ok [].
Proof.
  intros Ha. revert start.
  induction labels as [|l labels IH]; intros start Hc; [done|].
  cbn. unfold np.item. rewrite Ha. cbn. rewrite IH by lia. cbn.
  destruct (Nat.eqb_spec start c); [lia|done].
Qed.

Lemma keys_with_value_one labels a (idx start i : nat) (l : string) :
  a !! idx = Some (start + i) → labels !! i = Some l →
  keys_with_value (zip labels (seq start (length labels))) a idx = ok [l].
Proof.
  revert start i. induction labels as [|l' labels IH]; intros start i Ha Hl;
    [done|].
  cbn. unfold np.item. rewrite Ha. cbn.
  destruct i as [|i].
  - injection Hl as ->.
    rewrite (keys_with_value_none labels a idx (start + 0) (S start)) by
      (done || lia).
    cbn. rewrite Nat.add_0_r, Nat.eqb_refl. done.
  - rewrite (IH (S start) i); [|by rewrite Ha; f_equal; lia|done]. cbn.
    destruct (Nat.eqb_spec start (start + S i)); [lia|done].
Qed.
End KeysWithValue.

Lemma title_singletons {U : UnicodeData} (lt lp : string) :
  title [lt] [lp]
  = "true [" +:+ PyRepr.repr lt +:+ "]: predicted [" +:+ PyRepr.repr lp +:+ "]".
Proof.
  unfold title, PyRepr.str_list. cbn [fmap list_fmap PyRepr.join].
  rewrite !append_assoc. reflexivity.
Qed.

Lemma slice_one {A} (a : list A) (idx : nat) (x : A) :
  a !! idx = Some x → np.slice a idx (idx + 1) = [x].
Proof.
  intros Hx. unfold np.slice. replace (idx + 1 - idx) with 1 by lia.
  rewrite <- (take_drop_middle a idx x Hx).
  rewrite drop_app_length'; [done|].
  rewrite length_take. apply lookup_lt_Some in Hx. lia.
Qed.

Lemma report_one_ok {U : UnicodeData} {Image} (labels : list string) (X_test : list Image)
    (y_test y_pred : list nat) (idx : nat) :
  NoDup labels → length X_test = length y_test →
  length y_pred = length y_test →
  Forall (λ c, c < length labels) y_test →
  Forall (λ c, c < length labels) y_pred →
  idx ∈ misclassified y_pred y_test →
  ∃ s, report_one (make_label_index labels) X_test y_test y_pred idx = ok s
       ∧ reports labels X_test y_test y_pred idx s.
Proof.
  intros Hnd HX Hlen Ht Hp Hidx.
  apply list_elem_of_filter in Hidx as [Hne Hidx].
  apply elem_of_seq in Hidx as [_ Hidx]. cbn in Hidx.
  destruct (lookup_lt_is_Some_2 y_pred idx Hidx) as [p Hpi].
  destruct (lookup_lt_is_Some_2 y_test idx ltac:(lia)) as [t Hti].
  destruct (lookup_lt_is_Some_2 X_test idx ltac:(lia)) as [x Hxi].
  rewrite Forall_forall in Ht, Hp.
  destruct (lookup_lt_is_Some_2 labels t) as [lt Hlt];
    [by eapply Ht, list_elem_of_lookup_2|].
  destruct (lookup_lt_is_Some_2 labels p) as [lp Hlp];
    [by eapply Hp, list_elem_of_lookup_2|].
  unfold report_one, PyDict.items. rewrite make_label_index_zip by done.
  rewrite (keys_with_value_one labels y_test idx 0 t lt) by done.
  rewrite (keys_with_value_one labels y_pred idx 0 p lp) by done.
  cbn. eexists. split; [done|].
  exists x, t, p, lt, lp. cbn.
  rewrite title_singletons, (slice_one X_test idx x Hxi).
  repeat split; try done. intros ->. apply Hne. by rewrite Hpi, Hti.
Qed.

Lemma report_wrong_pictures_ok {U : UnicodeData} {Image}
    (labels : list string)
    (X_test : list Image) (y_test y_pred : list nat) :
  NoDup labels → length X_test = length y_test →
  length y_pred = length y_test →
  Forall (λ c, c < length labels) y_test →
  Forall (λ c, c < length labels) y_pred →
  ∃ summaries,
    report_wrong_pictures (make_label_index labels) X_test y_test y_pred
    = ok summaries
    ∧ Forall2 (reports labels X_test y_test y_pred)
              (take 20 (misclassified y_pred y_test)) summaries.
Proof.
  intros Hnd HX Hlen Ht Hp. unfold report_wrong_pictures.
  rewrite wrong_pictures_idx_ok by done. cbn.
  apply mapM_Forall2, Forall_forall. intros idx Hidx.
  apply report_one_ok; try done. by eapply subseteq_take.
Qed.

(** [repr] of a plain string only puts it in single quotes, whatever
    the Unicode database says. *)
Lemma repr_plain {U : UnicodeData} (s : string) :
  PyRepr.plain s = true → PyRepr.repr s = "'" +:+ s +:+ "'".
Proof.
  intros Hs. unfold PyRepr.repr.
  assert (Py.contains "'" s = false ∧ PyRepr.repr_body "'" s = s) as [Hq Hb].
  { unfold PyRepr.repr_body, PyRepr.decode.
    induction s as [|a s IH]; [done|]. cbn [PyRepr.plain] in Hs.
    apply andb_true_iff in Hs as [Ha Hs]. destruct (IH Hs) as [IH1 IH2].
    unfold PyRepr.plain_char in Ha.
    repeat (apply andb_true_iff in Ha as [Ha ?]).
    assert (nat_of_ascii a < 127) as Hhi by by apply Nat.ltb_lt.
    assert (N_of_ascii a < 128)%N as HN by (unfold nat_of_ascii in Hhi; lia).
    cbn [PyRepr.decode_from]. rewrite (proj2 (N.ltb_lt _ _) HN).
    cbn [foldr PyRepr.repr_item]. rewrite (proj2 (N.ltb_lt _ _) HN).
    rewrite ascii_N_embedding, IH2.
    unfold PyRepr.repr_char.
    destruct (Ascii.eqb a "'") eqn:Hquote; [done|].
    destruct (Ascii.eqb a PyRepr.backslash); [done|].
    destruct (Nat.ltb_spec (nat_of_ascii a) 32); [done|].
    destruct (Nat.eqb_spec (nat_of_ascii a) 127); [lia|].
    destruct (Nat.eqb_spec (nat_of_ascii a) 9); [lia|].
    destruct (Nat.eqb_spec (nat_of_ascii a) 10); [lia|].
    destruct (Nat.eqb_spec (nat_of_ascii a) 13); [lia|].
    cbn. by rewrite Hquote, IH1. }
  unfold PyRepr.quote_of. rewrite Hq. cbn. by rewrite Hb.
Qed.

(** A code point above 127 is kept when the database calls it
    printable and escaped when not: for U+3000 (bytes E3 80 80), which
    is a space separator, [repr] gives the escape. *)
Lemma repr_not_printable {U : UnicodeData} :
  isprintable 12288 = false →
  PyRepr.repr (String (ascii_of_nat 227) (String (ascii_of_nat 128)
                 (String (ascii_of_nat 128) EmptyString)))
  = String "'" (PyRepr.escape "u3000'").
Proof.
  destruct U as [p]. cbn [isprintable]. intros Hp. vm_compute.
  by rewrite Hp.
Qed.

(** ** A run that returns *)

Lemma extract_labels_length (input_type : string) (paths all_labels : list string) :
  extract_labels input_type paths = ok all_labels →
  length all_labels = length paths.
Proof.
  unfold extract_labels.
  destruct (String.eqb input_type "mnist").
  - intros [= <-]. apply length_fmap.
  - destruct (String.eqb input_type "chinese"); [|done].
    apply mapM_ok_length.
Qed.

Lemma modulo_scores_shape (k n : nat) : has_shape (modulo_scores k n) n k.
Proof.
  unfold has_shape, modulo_scores. rewrite length_fmap, length_seq.
  split; [done|]. apply Forall_fmap, Forall_forall. intros i _. cbn.
  by rewrite length_fmap, length_seq.
Qed.

(** The training subset has fewer than 32 images exactly when there are
    fewer than 48 files. *)
Lemma train_size_small (n : nat) : n - (33 * n + 99) / 100 < 32 ↔ n < 48.
Proof.
  pose proof (Nat.div_mod_eq (33 * n + 99) 100).
  pose proof (Nat.mod_upper_bound (33 * n + 99) 100). lia.
Qed.

Lemma modulo_network_scores {Image : Type} :
  scores_every_class (modulo_network (Image := Image)).
Proof.
  intros call X k Hk _. unfold modulo_network. rewrite Hk.
  apply modulo_scores_shape.
Qed.

Section Runs.
Context {G : RNG} {U : UnicodeData} {Image : Type}.
Variable imread : string → result Image.
Variable fit_predict : keras.FitCall Image → list Image → list (list Q).

(** A run on at least 48 readable files of a supported mode returns,
    and its stages fit together. *)
Lemma train_ok (input_type : string) (paths all_labels labels : list string)
    (global : rng_state) :
  rng_lawful G →
  is_ok (mapM imread paths) = true →
  extract_labels input_type paths = ok all_labels →
  set_listing all_labels labels →
  48 ≤ length paths →
  scores_every_class fit_predict →
  ∃ X_train X_test y_train y_test y_pred df summaries,
    train imread fit_predict input_type paths labels global
    = ok (mkRun (make_label_index labels) (X_train, y_train) (X_test, y_test)
                (steps_per_epoch X_train) df (pandas.to_csv df) summaries)
    ∧ np.argmax_rows
        (fit_predict (fit_call (make_label_index labels) X_train X_test
                               y_train y_test) X_test)
      = ok y_pred
    ∧ confusion_frame (make_label_index labels) y_test y_pred = ok df
    ∧ report_wrong_pictures (make_label_index labels) X_test y_test y_pred
      = ok summaries
    ∧ 0 < length labels
    ∧ length X_test = length y_test ∧ length y_pred = length y_test
    ∧ Forall (λ c, c < length labels) y_test
    ∧ Forall (λ c, c < length labels) y_pred
    ∧ 1 ≤ steps_per_epoch X_train.
Proof.
  intros Hlaw Hread Hext Hlist Hn Hshape.
  pose proof (set_listing_NoDup _ _ Hlist) as Hnd.
  destruct (mapM imread paths) as [all_images|e] eqn:Himg; [|done].
  pose proof (mapM_ok_length _ _ _ Himg) as Limg.
  destruct (label_stage_ok _ _ _ _ Hext Hlist) as (codes & Hstage & Hcodes).
  pose proof (extract_labels_length _ _ _ Hext) as Llab.
  pose proof (Forall2_length _ _ _ Hcodes) as Lcodes.
  assert (Forall (λ c, c < length labels) codes) as Hrange.
  { eapply Forall2_Forall_r; [exact Hcodes|].
    apply Forall_forall. intros l _ c Hc. by eapply lookup_lt_Some. }
  destruct (split_arrays_ok all_images codes (Some 0%Z) global Hlaw)
    as (tr & te & X_train & X_test & y_train & y_test & _ & Hsplit & Hperm
        & Hte & FX1 & FX2 & Fy1 & Fy2); [lia|lia|].
  assert (Forall (λ c, c < length labels) y_test) as Htest.
  { rewrite Forall_forall in Hrange. apply Forall_forall. intros c Hc.
    apply list_elem_of_lookup_1 in Hc as [i Hi].
    destruct (Forall2_lookup_r _ _ _ _ _ Fy2 Hi) as (j & _ & Hj).
    by eapply Hrange, list_elem_of_lookup_2. }
  assert (0 < length labels) as Hk.
  { destruct codes as [|c codes]; [cbn in *; lia|].
    inversion_clear Hrange. lia. }
  pose proof (Forall2_length _ _ _ FX1) as LX1.
  pose proof (Forall2_length _ _ _ FX2) as LX2.
  pose proof (Forall2_length _ _ _ Fy2) as Ly2.
  assert (1 ≤ steps_per_epoch X_train) as Hsteps.
  { apply Permutation_length in Hperm.
    rewrite length_app, length_seq in Hperm.
    unfold steps_per_epoch, batch_size.
    assert (¬ length all_images - (33 * length all_images + 99) / 100 < 32)
      as Hbig by (rewrite train_size_small; lia).
    apply (Nat.div_le_lower_bound _ 32 1); lia. }
  set (call := fit_call (make_label_index labels) X_train X_test
                        y_train y_test).
  assert (has_shape (fit_predict call X_test) (length X_test) (length labels))
    as Hsh.
  { apply Hshape; [|exact Hsteps].
    unfold call. cbn [fit_call keras.fit_model].
    by rewrite len_label_index. }
  destruct (argmax_rows_ok _ _ _ Hsh Hk) as (y_pred & Hpred & Lpred & Hprange).
  assert (length y_pred = length y_test) as Lpt by lia.
  destruct (confusion_frame_ok labels y_test y_pred Hnd Hk Lpt Htest Hprange)
    as (df & Hdf & _).
  destruct (report_wrong_pictures_ok labels X_test y_test y_pred Hnd
              ltac:(lia) Lpt Htest Hprange) as (summaries & Hsum & _).
  exists X_train, X_test, y_train, y_test, y_pred, df, summaries.
  split; [|repeat split; (done || lia)].
  unfold train. rewrite Himg, Hstage. cbn. rewrite Hsplit. cbn.
  fold call. unfold keras.fit_generator.
  replace (keras.fit_steps_per_epoch call) with (steps_per_epoch X_train)
    by done.
  destruct (Nat.eqb_spec (steps_per_epoch X_train) 0) as [Hz|_]; [lia|].
  cbn. rewrite Hpred. cbn.
  rewrite Hdf. cbn. by rewrite Hsum.
Qed.
End Runs.

(** ** C7: the confusion matrix *)

(** C7: every run that returns (a supported mode, at least 48 readable
    files, so that an epoch has a batch, and a fit whose network scores
    every test image for every class) has written a confusion matrix
    that is square, with as many rows and columns as there are distinct
    labels; row [i] and column [i] carry the label string whose integer
    index is [i], entry [(i, j)] counts the test samples of class [i]
    predicted as class [j], and the entries sum to the size of the test
    set.  The predictions are those of the network fitted on the
    training subset, and the table written to the file has the label
    strings as its header row and at the head of each row. *)
Theorem confusion_matrix_of_run {G : RNG} {U : UnicodeData} {Image : Type}
    (imread : string → result Image)
    (fit_predict : keras.FitCall Image → list Image → list (list Q))
    (input_type : string) (paths all_labels labels : list string)
    (global : rng_state) :
  rng_lawful G →
  is_ok (mapM imread paths) = true →
  extract_labels input_type paths = ok all_labels →
  set_listing all_labels labels →
  48 ≤ length paths →
  scores_every_class fit_predict →
  ∃ run y_pred df,
    train imread fit_predict input_type paths labels global = ok run
    ∧ run_confusion_matrix run = df
    ∧ np.argmax_rows
        (fit_predict (fit_call (run_label_index run)
                               (run_train run).1 (run_test run).1
                               (run_train run).2 (run_test run).2)
                     (run_test run).1)
      = ok y_pred
    ∧ length (pandas.data df) = num_classes all_labels
    ∧ Forall (λ row, length row = num_classes all_labels) (pandas.data df)
    ∧ pandas.index df = labels ∧ pandas.columns df = labels
    ∧ (∀ i l, labels !! i = Some l
              ↔ lookup_label (run_label_index run) l = ok i)
    ∧ (∀ i j, i < num_classes all_labels → j < num_classes all_labels →
         entry (pandas.data df) i j
         = Some (count_pairs (run_test run).2 y_pred i j))
    ∧ matrix_sum (pandas.data df) = length (run_test run).1
    ∧ run_csv run
      = (pandas.Text EmptyString :: (pandas.Text <$> labels))
        :: zip_with (λ l row, pandas.Text l :: (pandas.Count <$> row))
                    labels (pandas.data df).
Proof.
  intros Hlaw Hread Hext Hlist Hn Hshape.
  pose proof (set_listing_NoDup _ _ Hlist) as Hnd.
  pose proof (set_listing_length _ _ Hlist) as Hlen.
  destruct (train_ok imread fit_predict input_type paths all_labels labels
              global Hlaw Hread Hext Hlist Hn Hshape)
    as (X_train & X_test & y_train & y_test & y_pred & df & summaries
        & Hrun & Hpred & Hdf & _ & Hk & LX & Lp & Ht & Hp & _).
  destruct (confusion_frame_ok labels y_test y_pred Hnd Hk Lp Ht Hp)
    as (df' & Hdf' & Hcols & Hidx & Hrows & Hwidth & Hsum & Hentry).
  rewrite Hdf in Hdf'. injection Hdf' as <-.
  eexists _, y_pred, df. split; [exact Hrun|].
  cbn [run_label_index run_train run_test run_confusion_matrix run_csv
       fst snd].
  rewrite <- Hlen.
  split; [done|]. split; [done|]. split; [done|]. split; [done|].
  split; [done|]. split; [done|]. split.
  { intros i l. symmetry. by apply lookup_label_position. }
  split; [done|]. split; [lia|].
  unfold pandas.to_csv. by rewrite Hcols, Hidx.
Qed.

Lemma confusion_matrix_of_run_witness :
  ∃ run,
    train (G := rotate_rng) (U := ascii_table) (λ path, ok path)
          modulo_network "mnist" (sample_paths 50) ["catB"; "catA"] 7
    = ok run
    ∧ length (pandas.data (run_confusion_matrix run)) = 2
    ∧ matrix_sum (pandas.data (run_confusion_matrix run))
      = length (run_test run).1
    ∧ length (run_test run).1 = 17.
Proof.
  destruct (confusion_matrix_of_run (G := rotate_rng) (U := ascii_table)
              (λ path, ok path) modulo_network
              "mnist" (sample_paths 50) (mnist_label <$> sample_paths 50)
              ["catB"; "catA"] 7)
    as (run & y_pred & df & Hrun & <- & _ & Hrows & _ & _ & _ & _ & _ & Hsum
        & _).
  - apply rotate_rng_lawful.
  - vm_compute. reflexivity.
  - reflexivity.
  - unfold set_listing. vm_compute. apply perm_swap.
  - vm_compute. lia.
  - apply modulo_network_scores.
  - exists run. split; [exact Hrun|]. split; [exact Hrows|].
    split; [exact Hsum|].
    revert Hrun. vm_compute. by intros [= <-].
Defined.

(** ** C8: the report of wrongly classified pictures *)

(** C8, as stated, fails on the text written with each picture: for a
    test picture of class [catA] predicted as [catB] the text is
    [true ['catA']: predicted ['catB']], the two label lists as Python
    prints them, and not [true: catA, predicted: catB]. *)
Lemma annotation_counterexample :
  report_wrong_pictures (U := ascii_table) (make_label_index ["catA"; "catB"])
                        ["/i/catA/1.png"] [0] [1]
  = ok [mkSummary "true ['catA']: predicted ['catB']" ["/i/catA/1.png"] 100 1]
  ∧ "true ['catA']: predicted ['catB']" ≠ "true: catA, predicted: catB".
Proof. split; [reflexivity|discriminate]. Qed.

(** C8, amended: a run that returns has written one image summary for
    each of the first 20 (at most) test positions, in test-set order, at
    which the predicted class differs from the true class, and for no
    other position; the summary for a position holds the test image at
    that position and, as its tag, the text
    [true [X]: predicted [Y]], where [X] and [Y] are the true and the
    predicted label string as [repr] prints them: in single quotes and
    unchanged when the label is printable ASCII without quotes or
    backslashes. *)
Theorem wrong_pictures_of_run {G : RNG} {U : UnicodeData} {Image : Type}
    (imread : string → result Image)
    (fit_predict : keras.FitCall Image → list Image → list (list Q))
    (input_type : string) (paths all_labels labels : list string)
    (global : rng_state) :
  rng_lawful G →
  is_ok (mapM imread paths) = true →
  extract_labels input_type paths = ok all_labels →
  set_listing all_labels labels →
  48 ≤ length paths →
  scores_every_class fit_predict →
  ∃ run y_pred,
    train imread fit_predict input_type paths labels global = ok run
    ∧ np.argmax_rows
        (fit_predict (fit_call (run_label_index run)
                               (run_train run).1 (run_test run).1
                               (run_train run).2 (run_test run).2)
                     (run_test run).1)
      = ok y_pred
    ∧ length y_pred = length (run_test run).2
    ∧ Forall2 (reports labels (run_test run).1 (run_test run).2 y_pred)
              (take 20 (misclassified y_pred (run_test run).2))
              (run_summaries run)
    ∧ length (run_summaries run)
      = 20 `min` length (misclassified y_pred (run_test run).2)
    ∧ (∀ idx, idx ∈ misclassified y_pred (run_test run).2
              ↔ idx < length (run_test run).2
                ∧ y_pred !! idx ≠ (run_test run).2 !! idx)
    ∧ ∀ l, PyRepr.plain l = true → PyRepr.repr l = "'" +:+ l +:+ "'".
Proof.
  intros Hlaw Hread Hext Hlist Hn Hshape.
  pose proof (set_listing_NoDup _ _ Hlist) as Hnd.
  pose proof (set_listing_length _ _ Hlist) as Hlen.
  destruct (train_ok imread fit_predict input_type paths all_labels labels
              global Hlaw Hread Hext Hlist Hn Hshape)
    as (X_train & X_test & y_train & y_test & y_pred & df & summaries
        & Hrun & Hpred & _ & Hsum & Hk & LX & Lp & Ht & Hp & _).
  destruct (report_wrong_pictures_ok labels X_test y_test y_pred Hnd LX Lp
              Ht Hp) as (summaries' & Hsum' & Hrep).
  rewrite Hsum in Hsum'. injection Hsum' as <-.
  eexists _, y_pred. split; [exact Hrun|].
  cbn [run_label_index run_test run_train run_summaries fst snd].
  split; [done|]. split; [done|]. split; [done|]. split.
  { rewrite <- (Forall2_length _ _ _ Hrep). apply length_take. }
  split; [|exact repr_plain].
  intros idx. unfold misclassified.
  rewrite list_elem_of_filter, elem_of_seq. rewrite Lp. intuition lia.
Qed.

Lemma wrong_pictures_of_run_witness :
  ∃ run,
    train (G := rotate_rng) (U := ascii_table) (λ path, ok path)
          modulo_network "mnist" (sample_paths 50) ["catB"; "catA"] 7
    = ok run
    ∧ length (run_summaries run) ≤ 20
    ∧ length (run_test run).1 = 17.
Proof.
  destruct (wrong_pictures_of_run (G := rotate_rng) (U := ascii_table)
              (λ path, ok path) modulo_network
              "mnist" (sample_paths 50) (mnist_label <$> sample_paths 50)
              ["catB"; "catA"] 7)
    as (run & y_pred & Hrun & _ & _ & _ & Hcount & _).
  - apply rotate_rng_lawful.
  - vm_compute. reflexivity.
  - reflexivity.
  - unfold set_listing. vm_compute. apply perm_swap.
  - vm_compute. lia.
  - apply modulo_network_scores.
  - exists run. split; [exact Hrun|].
    split; [rewrite Hcount; apply Nat.le_min_l|].
    revert Hrun. vm_compute. by intros [= <-].
Defined.

(** * Further properties of the script *)

(** ** Labels and their codes *)

Lemma label_stage_inv (input_type : string) (paths all_labels labels : list string)
    (label_index : PyDict.dict string nat) (codes : list nat) :
  extract_labels input_type paths = ok all_labels →
  set_listing all_labels labels →
  label_stage input_type paths labels = ok (label_index, codes) →
  label_index = make_label_index labels
  ∧ Forall2 (λ l c, labels !! c = Some l) all_labels codes.
Proof.
  intros He Hl Hs.
  destruct (label_stage_ok _ _ _ _ He Hl) as (codes' & Hs' & HF).
  rewrite Hs in Hs'. by injection Hs' as -> ->.
Qed.

(** X1: the integer labels can be decoded: the label at position [code] of
    the listing is the image's label string; and two images get the same
    integer label exactly when their label strings are equal, in
    whatever order line 81 lists the set. *)
Theorem label_codes_round_trip (input_type : string)
    (paths all_labels labels : list string) :
  extract_labels input_type paths = ok all_labels →
  set_listing all_labels labels →
  ∃ codes,
    label_stage input_type paths labels = ok (make_label_index labels, codes)
    ∧ Forall2 (λ l c, labels !! c = Some l
                      ∧ lookup_label (make_label_index labels) l = ok c)
              all_labels codes
    ∧ ∀ i j li lj ci cj,
        all_labels !! i = Some li → all_labels !! j = Some lj →
        codes !! i = Some ci → codes !! j = Some cj →
        (ci = cj ↔ li = lj).
Proof.
  intros He Hl.
  pose proof (set_listing_NoDup _ _ Hl) as Hnd.
  destruct (label_stage_ok _ _ _ _ He Hl) as (codes & Hs & HF).
  exists codes. split; [done|]. split.
  - eapply Forall2_impl; [exact HF|]. intros l c Hc. split; [done|].
    by apply lookup_label_position.
  - intros i j li lj ci cj Hli Hlj Hci Hcj.
    pose proof (Forall2_lookup_lr _ _ _ _ _ _ HF Hli Hci) as Hi.
    pose proof (Forall2_lookup_lr _ _ _ _ _ _ HF Hlj Hcj) as Hj.
    cbn in Hi, Hj. split.
    + intros ->. congruence.
    + intros ->. by eapply NoDup_lookup.
Qed.

Lemma label_codes_round_trip_witness :
  ∃ codes,
    label_stage "chinese" ["/d/img_1_A.png"; "/d/img_2_B.png"; "/e/x_A.png"]
                ["B"; "A"]
    = ok (make_label_index ["B"; "A"], codes)
    ∧ codes = [1; 0; 1].
Proof.
  destruct (label_codes_round_trip "chinese"
              ["/d/img_1_A.png"; "/d/img_2_B.png"; "/e/x_A.png"]
              ["A"; "B"; "A"] ["B"; "A"]) as (codes & Hs & _).
  - reflexivity.
  - unfold set_listing. vm_compute. apply perm_swap.
  - exists codes. split; [exact Hs|].
    vm_compute in Hs. by injection Hs as <-.
Defined.

(** X2: every class of the index is in use: each integer below the number
    of classes is the label of at least one image; so there are at most
    as many classes as images, and at least one when there is an
    image. *)
Theorem every_class_is_used (input_type : string)
    (paths all_labels labels : list string) :
  extract_labels input_type paths = ok all_labels →
  set_listing all_labels labels →
  ∃ codes,
    label_stage input_type paths labels = ok (make_label_index labels, codes)
    ∧ (∀ c, c < PyDict.len (make_label_index labels) → c ∈ codes)
    ∧ PyDict.len (make_label_index labels) ≤ length paths
    ∧ (paths ≠ [] → 1 ≤ PyDict.len (make_label_index labels)).
Proof.
  intros He Hl.
  pose proof (set_listing_NoDup _ _ Hl) as Hnd.
  pose proof (extract_labels_length _ _ _ He) as Hlen.
  destruct (label_stage_ok _ _ _ _ He Hl) as (codes & Hs & HF).
  exists codes. rewrite len_label_index by done. split; [done|].
  assert (∀ c, c < length labels → c ∈ codes) as Hused.
  { intros c Hc.
    destruct (lookup_lt_is_Some_2 labels c Hc) as [l Hlc].
    assert (l ∈ all_labels) as Hin.
    { apply (set_listing_elem all_labels labels l Hl).
      by eapply list_elem_of_lookup_2. }
    apply list_elem_of_lookup_1 in Hin as [i Hi].
    destruct (Forall2_lookup_l _ _ _ _ _ HF Hi) as (c' & Hc' & Hlc').
    rewrite (NoDup_lookup labels c c' l Hnd Hlc Hlc').
    by eapply list_elem_of_lookup_2. }
  split; [done|]. split.
  - rewrite <- Hlen. apply submseteq_length, NoDup_submseteq; [done|].
    intros l. by rewrite (set_listing_elem all_labels labels l Hl).
  - intros Hne. destruct all_labels as [|l all_labels].
    { destruct paths; [done|discriminate Hlen]. }
    assert (l ∈ labels) as Hin.
    { apply (set_listing_elem (l :: all_labels) labels l Hl). left. }
    destruct labels; [by apply elem_of_nil in Hin|cbn; lia].
Qed.

Lemma every_class_is_used_witness :
  ∃ codes,
    label_stage "mnist" ["/i/catA/1.png"; "/i/catB/2.png"; "/i/catA/3.png"]
                ["catB"; "catA"]
    = ok (make_label_index ["catB"; "catA"], codes)
    ∧ 0 ∈ codes ∧ 1 ∈ codes.
Proof.
  destruct (every_class_is_used "mnist"
              ["/i/catA/1.png"; "/i/catB/2.png"; "/i/catA/3.png"]
              ["catA"; "catB"; "catA"] ["catB"; "catA"])
    as (codes & Hs & Hused & _).
  - reflexivity.
  - unfold set_listing. vm_compute. apply perm_swap.
  - exists codes. split; [exact Hs|].
    split; apply Hused; vm_compute; lia.
Defined.

(** X3: a label that the listing lacks stops the encoding with a [KeyError]
    that names it: the first such label in image order. *)
Theorem encode_labels_missing_key (labels known rest : list string)
    (l : string) :
  NoDup labels → Forall (λ k, k ∈ labels) known → l ∉ labels →
  lookup_label (make_label_index labels) l = raise (KeyError l)
  ∧ encode_labels (make_label_index labels) (known ++ l :: rest)
    = raise (KeyError l).
Proof.
  intros Hnd Hknown Hl.
  assert (lookup_label (make_label_index labels) l = raise (KeyError l)) as Hm.
  { unfold lookup_label. rewrite get_None; [done|].
    by rewrite keys_label_index. }
  split; [done|]. unfold encode_labels.
  induction Hknown as [|k known Hk _ IH].
  - cbn [app]. by rewrite mapM_cons, Hm.
  - apply list_elem_of_lookup_1 in Hk as [i Hi].
    cbn [app]. rewrite mapM_cons.
    rewrite (proj2 (lookup_label_position labels i k Hnd) Hi). cbn.
    by rewrite IH.
Qed.

Lemma encode_labels_missing_key_witness :
  lookup_label (make_label_index ["catA"; "catB"]) "catC"
  = raise (KeyError "catC")
  ∧ encode_labels (make_label_index ["catA"; "catB"])
                  (["catB"; "catA"] ++ "catC" :: ["catD"])
    = raise (KeyError "catC").
Proof.
  apply (encode_labels_missing_key ["catA"; "catB"] ["catB"; "catA"]
           ["catD"] "catC").
  - apply NoDup_cons. split; [|apply NoDup_singleton].
    by rewrite list_elem_of_singleton.
  - by repeat constructor.
  - rewrite !elem_of_cons, elem_of_nil. by intros [|[|]].
Defined.

(** ** What a label can look like *)

Section Clean.
Implicit Types (c d a : ascii) (s : string).

Lemma split_fields_clean c s :
  Forall (λ f, Py.contains c f = false) (Py.split c s).
Proof.
  induction s as [|a s IH]; cbn; [by repeat constructor|].
  destruct (Ascii.eqb a c) eqn:E; [by constructor|].
  destruct (Py.split c s) as [|f fs] eqn:Hs; [by apply split_not_nil in Hs|].
  inversion_clear IH. constructor; [|done]. cbn. by rewrite E.
Qed.

Lemma contains_before_first d c s :
  Py.contains d s = false → Py.contains d (before_first c s) = false.
Proof.
  induction s as [|a s IH]; cbn; [done|].
  destruct (Ascii.eqb a d) eqn:E; [done|]. intros H.
  destruct (Ascii.eqb a c); [done|]. cbn. rewrite E. by apply IH.
Qed.

Lemma contains_after_last d c s :
  Py.contains d s = false → Py.contains d (after_last c s) = false.
Proof.
  induction s as [|a s IH]; cbn; [done|].
  destruct (Ascii.eqb a d) eqn:E; [done|]. intros H.
  destruct (Py.contains c s); [by apply IH|].
  destruct (Ascii.eqb a c); [done|]. cbn. by rewrite E.
Qed.

Lemma after_last_no_self c s : Py.contains c (after_last c s) = false.
Proof.
  induction s as [|a s IH]; cbn; [done|].
  destruct (Py.contains c s) eqn:Hc; [done|].
  destruct (Ascii.eqb a c) eqn:E; [done|]. cbn. by rewrite E.
Qed.
End Clean.

Lemma parts_clean (path : string) :
  Forall (λ c, Py.contains "/" c = false ∧ pathlib.is_component c = true)
         (pathlib.parts (pathlib.Path path)).
Proof.
  unfold pathlib.Path; cbn [pathlib.parts].
  apply Forall_forall. intros c Hc.
  apply list_elem_of_In, List.filter_In in Hc as [Hc Hcomp].
  split; [|done].
  pose proof (split_fields_clean "/" path) as Hclean.
  rewrite Forall_forall in Hclean. by apply Hclean, list_elem_of_In.
Qed.

Lemma Forall_removelast {A} (P : A → Prop) (l : list A) :
  Forall P l → Forall P (removelast l).
Proof.
  destruct l as [|x l _] using rev_ind; [done|].
  rewrite removelast_last. by intros [? _]%Forall_app.
Qed.

Lemma last_component_clean (l : list string) :
  Forall (λ c, Py.contains "/" c = false ∧ pathlib.is_component c = true) l →
  Py.contains "/" (default EmptyString (last l)) = false
  ∧ default EmptyString (last l) ≠ ".".
Proof.
  destruct l as [|x l _] using rev_ind; [done|].
  rewrite last_snoc. intros [_ Hx]%Forall_app.
  inversion_clear Hx as [|? ? [Hs Hc] _]. cbn. split; [done|].
  intros ->. discriminate Hc.
Qed.

Lemma name_default (p : pathlib.PurePath) :
  pathlib.name p = default EmptyString (last (pathlib.parts p)).
Proof. unfold pathlib.name. by destruct (last _). Qed.

(** X4: a label of mode [chinese] holds no underscore, no dot and no slash;
    a label of mode [mnist] holds no slash and is never [.]; and neither
    extraction can fail. *)
Theorem labels_are_clean :
  (∀ path : string,
     ∃ l, chinese_label path = ok l
          ∧ Py.contains "_" l = false ∧ Py.contains "." l = false
          ∧ Py.contains "/" l = false)
  ∧ (∀ path : string,
       Py.contains "/" (mnist_label path) = false ∧ mnist_label path ≠ ".").
Proof.
  split.
  - intros path. eexists. split; [apply label_of_name_cuts|].
    split; [apply after_last_no_self|]. split.
    + apply contains_after_last, before_first_contains.
    + apply contains_after_last, contains_before_first.
      rewrite name_default. apply last_component_clean, parts_clean.
  - intros path. unfold mnist_label. rewrite name_default.
    apply last_component_clean. unfold pathlib.parent; cbn [pathlib.parts].
    apply Forall_removelast, parts_clean.
Qed.

(** X5: mode [chinese] looks at the file name only: the directories of a
    path play no role.  Mode [mnist] looks at the directory only: a file
    that lies directly in [dir] gets the name of [dir] as its label,
    whatever the file is called, so the files of one flat directory all
    get the same label. *)
Theorem label_ignores_the_other_part :
  (∀ dir dir' f : string,
     component f →
     chinese_label (dir +:+ "/" +:+ f) = label_of_name f
     ∧ chinese_label (dir +:+ "/" +:+ f) = chinese_label (dir' +:+ "/" +:+ f))
  ∧ (∀ dir f : string,
       component f →
       mnist_label (dir +:+ "/" +:+ f) = pathlib.name (pathlib.Path dir))
  ∧ (∀ (dir : string) (fs : list string),
       Forall component fs →
       extract_labels "mnist" ((λ f, dir +:+ "/" +:+ f) <$> fs)
       = ok (replicate (length fs) (pathlib.name (pathlib.Path dir)))).
Proof.
  assert (∀ dir f : string, component f →
            mnist_label (dir +:+ "/" +:+ f) = pathlib.name (pathlib.Path dir))
    as Hmnist.
  { intros dir f Hf. unfold mnist_label, pathlib.name.
    by rewrite (parent_join dir f Hf). }
  split; [|split; [exact Hmnist|]].
  - intros dir dir' f Hf. unfold chinese_label.
    by rewrite !(name_join _ f Hf).
  - intros dir fs Hfs. rewrite extract_labels_mnist. f_equal.
    induction Hfs as [|f fs Hf _ IH]; [done|].
    cbn. by rewrite IH, Hmnist.
Qed.

Lemma label_ignores_the_other_part_witness :
  chinese_label ("/kqi/input/images/a/b" +:+ "/" +:+ "img_7_X.png")
  = label_of_name "img_7_X.png"
  ∧ mnist_label ("/kqi/input/images" +:+ "/" +:+ "0001.png") = "images"
  ∧ extract_labels "mnist"
      ((λ f, "/kqi/input/images" +:+ "/" +:+ f) <$> ["1.png"; "2.png"])
    = ok ["images"; "images"].
Proof.
  split; [|split].
  - apply (proj1 label_ignores_the_other_part
             "/kqi/input/images/a/b" "/tmp" "img_7_X.png").
    split; reflexivity.
  - apply (proj1 (proj2 label_ignores_the_other_part)
             "/kqi/input/images" "0001.png").
    split; reflexivity.
  - apply (proj2 (proj2 label_ignores_the_other_part)
             "/kqi/input/images" ["1.png"; "2.png"]).
    repeat constructor.
Defined.

(** ** Runs that fail, and the sizes of a run that returns *)

Lemma mapM_ok_Forall2 {A B} (f : A → result B) (l : list A) (ys : list B) :
  mapM f l = ok ys → Forall2 (λ x y, f x = ok y) l ys.
Proof.
  revert ys. induction l as [|x l IH]; intros ys.
  - intros [= <-]. constructor.
  - rewrite mapM_cons. destruct (f x) as [y|e] eqn:Hx; [|done].
    destruct (mapM f l) as [ys'|e]; [|done]. intros [= <-].
    constructor; [done|]. by apply IH.
Qed.

Lemma mapM_raise_first {A B} (f : A → result B) (l rest : list A) (x : A)
    (e : exn) :
  Forall (λ x, is_ok (f x) = true) l → f x = raise e →
  mapM f (l ++ x :: rest) = raise e.
Proof.
  intros Hl Hx. induction Hl as [|x' l Hx' _ IH].
  - cbn [app]. by rewrite mapM_cons, Hx.
  - cbn [app]. rewrite mapM_cons, IH. by destruct (f x').
Qed.

Section SplitEdges.
Context {G : RNG} {A B : Type}.
Implicit Types (X : list A) (y : list B).

Lemma split_mismatch_raises X y (test_size : Q) (random_state : option Z)
    (global : rng_state) :
  length X ≠ length y →
  (sklearn.train_test_split X y test_size random_state global).1
  = raise (ValueError "inconsistent numbers of samples").
Proof.
  intros Hne. unfold sklearn.train_test_split.
  by rewrite (proj2 (Nat.eqb_neq _ _) Hne).
Qed.

Lemma split_small_raises X y (random_state : option Z) (global : rng_state) :
  length X = length y → length X ≤ 1 →
  (sklearn.train_test_split X y (33 # 100) random_state global).1
  = raise (ValueError "the resulting train set will be empty").
Proof.
  intros Hlen Hn. rewrite train_test_split_fst by done.
  unfold sklearn.split_indices.
  by rewrite validate_shuffle_split_033_small.
Qed.

Lemma split_ok_inv X y (random_state : option Z) (global : rng_state)
    (X_train X_test : list A) (y_train y_test : list B) :
  rng_lawful G →
  (sklearn.train_test_split X y (33 # 100) random_state global).1
  = ok (X_train, X_test, y_train, y_test) →
  length X = length y ∧ 2 ≤ length X
  ∧ ∃ train test,
      test ++ train ≡ₚ seq 0 (length X)
      ∧ length test = (33 * length X + 99) / 100
      ∧ Forall2 (λ i x, X !! i = Some x) train X_train
      ∧ Forall2 (λ i x, X !! i = Some x) test X_test
      ∧ Forall2 (λ i v, y !! i = Some v) train y_train
      ∧ Forall2 (λ i v, y !! i = Some v) test y_test.
Proof.
  intros Hlaw Hok.
  destruct (decide (length X = length y)) as [Hlen|Hne];
    [|by rewrite split_mismatch_raises in Hok].
  destruct (decide (2 ≤ length X)) as [Hn|Hsmall];
    [|rewrite split_small_raises in Hok by (done || lia); done].
  split; [done|]. split; [done|].
  destruct (split_arrays_ok X y random_state global Hlaw Hlen Hn)
    as (train & test & ? & ? & ? & ? & _ & Hok' & Hperm & Htest
        & FX1 & FX2 & Fy1 & Fy2).
  rewrite Hok in Hok'. injection Hok' as <- <- <- <-.
  by exists train, test.
Qed.
End SplitEdges.

(** X6: a run on fewer than two files never returns, whatever the mode, the
    files and the network; when the files can be read and the mode is
    supported, the error is the splitter's refusal of an empty train
    set.  The splitter itself also refuses images and labels of
    different number. *)
Theorem run_needs_two_files {G : RNG} {U : UnicodeData}
    {Image : Type}
    (imread : string → result Image)
    (fit_predict : keras.FitCall Image → list Image → list (list Q))
    (input_type : string) (paths labels : list string) (global : rng_state) :
  length paths ≤ 1 →
  is_ok (train imread fit_predict input_type paths labels global) = false
  ∧ (∀ all_labels,
       is_ok (mapM imread paths) = true →
       extract_labels input_type paths = ok all_labels →
       set_listing all_labels labels →
       train imread fit_predict input_type paths labels global
       = raise (ValueError "the resulting train set will be empty"))
  ∧ (∀ (X : list Image) (y : list nat) (random_state : option Z),
       length X ≠ length y →
       (sklearn.train_test_split X y (33 # 100) random_state global).1
       = raise (ValueError "inconsistent numbers of samples")).
Proof.
  intros Hn. split; [|split].
  - unfold train.
    destruct (mapM imread paths) as [all_images|e] eqn:Himg; [|done].
    pose proof (mapM_ok_length _ _ _ Himg) as Limg.
    destruct (label_stage _ _ _) as [[label_index codes]|e]; [|done].
    cbn.
    destruct (decide (length all_images = length codes)) as [Hlen|Hne].
    + rewrite split_small_raises by (done || lia). done.
    + rewrite split_mismatch_raises by done. done.
  - intros all_labels Hread Hext Hlist. unfold train.
    destruct (mapM imread paths) as [all_images|e] eqn:Himg; [|done].
    pose proof (mapM_ok_length _ _ _ Himg) as Limg.
    destruct (label_stage_ok _ _ _ _ Hext Hlist) as (codes & -> & HF).
    pose proof (Forall2_length _ _ _ HF) as Lcodes.
    pose proof (extract_labels_length _ _ _ Hext) as Llab.
    cbn. rewrite split_small_raises by lia. done.
  - intros X y random_state Hne. by apply split_mismatch_raises.
Qed.

Lemma run_needs_two_files_witness :
  is_ok (train (G := rotate_rng) (U := ascii_table) (λ path, ok path)
               modulo_network
               "chinese" ["/d/img_1_A.png"] ["A"] 3) = false.
Proof.
  apply (run_needs_two_files (G := rotate_rng) (λ path, ok path)
           modulo_network
           "chinese" ["/d/img_1_A.png"] ["A"] 3).
  cbn. lia.
Defined.

(** X7: a file that cannot be read ends the run with its error, before any
    label is looked at: also when the mode is not a supported one, and
    whatever the files after it are. *)
Theorem unreadable_file_aborts {G : RNG} {U : UnicodeData}
    {Image : Type}
    (imread : string → result Image)
    (fit_predict : keras.FitCall Image → list Image → list (list Q))
    (input_type : string) (readable rest labels : list string)
    (bad : string) (e : exn) (global : rng_state) :
  Forall (λ path, is_ok (imread path) = true) readable →
  imread bad = raise e →
  train imread fit_predict input_type (readable ++ bad :: rest) labels global
  = raise e.
Proof.
  intros Hread Hbad. unfold train.
  by rewrite (mapM_raise_first imread readable rest bad e Hread Hbad).
Qed.

Lemma unreadable_file_aborts_witness :
  train (G := rotate_rng) (U := ascii_table)
        (λ path, if String.eqb path "/i/notes.txt"
                 then raise (ValueError "Could not find a backend")
                 else ok path)
        modulo_network
        "cifar" (["/i/catA/1.png"] ++ "/i/notes.txt" :: ["/i/catB/2.png"])
        ["catA"; "catB"] 0
  = raise (ValueError "Could not find a backend").
Proof.
  apply (unreadable_file_aborts (G := rotate_rng)).
  - by repeat constructor.
  - reflexivity.
Defined.



(** ** Images and labels stay together *)

Lemma Forall2_same_indices {A B} (X : list A) (y : list B) (ind : list nat)
    (xs : list A) (ys : list B) :
  Forall2 (λ i x, X !! i = Some x) ind xs →
  Forall2 (λ i v, y !! i = Some v) ind ys →
  Forall2 (λ x v, ∃ i, X !! i = Some x ∧ y !! i = Some v) xs ys.
Proof.
  intros HX. revert ys.
  induction HX as [|i x ind xs Hi _ IH]; intros ys Hy;
    inversion Hy as [|? v ? ys' Hv Hys]; subst; constructor; eauto.
Qed.

(** X9: in a run that returns, every pair of the train and of the test
    subset is the image read from one of the input files together with
    the integer label of that same file: the shuffle never separates an
    image from its label. *)
Theorem split_keeps_image_with_its_label {G : RNG} {U : UnicodeData}
    {Image : Type}
    (imread : string → result Image)
    (fit_predict : keras.FitCall Image → list Image → list (list Q))
    (input_type : string) (paths all_labels labels : list string)
    (global : rng_state) (run : Run Image) :
  rng_lawful G →
  extract_labels input_type paths = ok all_labels →
  set_listing all_labels labels →
  train imread fit_predict input_type paths labels global = ok run →
  Forall2 (λ x c, ∃ j path l,
             paths !! j = Some path ∧ imread path = ok x
             ∧ all_labels !! j = Some l ∧ labels !! c = Some l)
          (run_test run).1 (run_test run).2
  ∧ Forall2 (λ x c, ∃ j path l,
               paths !! j = Some path ∧ imread path = ok x
               ∧ all_labels !! j = Some l ∧ labels !! c = Some l)
            (run_train run).1 (run_train run).2.
Proof.
  intros Hlaw Hext Hlist Hrun.
  apply train_ok_inv in Hrun
    as (all_images & label_index & codes & X_train & X_test & y_train
        & y_test & y_pred & Himg & Hstage & Hsplit & _ & _ & _ & _ & -> & ->
        & _).
  apply mapM_ok_Forall2 in Himg.
  destruct (label_stage_inv _ _ _ _ _ _ Hext Hlist Hstage) as [_ Hcodes].
  apply split_ok_inv in Hsplit
    as (_ & _ & train & test & _ & _ & FX1 & FX2 & Fy1 & Fy2); [|done].
  assert (∀ x c, (∃ i, all_images !! i = Some x ∧ codes !! i = Some c) →
            ∃ j path l, paths !! j = Some path ∧ imread path = ok x
                        ∧ all_labels !! j = Some l ∧ labels !! c = Some l)
    as Hpair.
  { intros x c (i & Hx & Hc).
    destruct (Forall2_lookup_r _ _ _ _ _ Himg Hx) as (path & Hpath & Hread).
    destruct (Forall2_lookup_r _ _ _ _ _ Hcodes Hc) as (l & Hl & Hlc).
    by exists i, path, l. }
  cbn [fst snd]. split.
  - eapply Forall2_impl; [exact (Forall2_same_indices _ _ _ _ _ FX2 Fy2)|].
    exact Hpair.
  - eapply Forall2_impl; [exact (Forall2_same_indices _ _ _ _ _ FX1 Fy1)|].
    exact Hpair.
Qed.

Lemma split_keeps_image_with_its_label_witness :
  ∃ run,
    train (G := rotate_rng) (U := ascii_table) (λ path, ok path)
          modulo_network "mnist" (sample_paths 50) ["catB"; "catA"] 7
    = ok run
    ∧ length (run_test run).1 = 17
    ∧ Forall2 (λ x c, ∃ j path l,
                 sample_paths 50 !! j = Some path
                 ∧ ok path = ok x
                 ∧ (mnist_label <$> sample_paths 50) !! j = Some l
                 ∧ ["catB"; "catA"] !! c = Some l)
              (run_test run).1 (run_test run).2.
Proof.
  eexists. split; [vm_compute; reflexivity|].
  split; [vm_compute; reflexivity|].
  apply (split_keeps_image_with_its_label (G := rotate_rng)
           (U := ascii_table) (λ path, ok path) modulo_network
           "mnist" (sample_paths 50) (mnist_label <$> sample_paths 50)
           ["catB"; "catA"] 7).
  - apply rotate_rng_lawful.
  - reflexivity.
  - unfold set_listing. vm_compute. apply perm_swap.
  - vm_compute. reflexivity.
Defined.

(** ** The margins of the confusion matrix, and the report *)

Lemma table_of_entries (m : list (list nat)) (k : nat) (f : nat → nat → nat) :
  length m = k → Forall (λ row, length row = k) m →
  (∀ i j, i < k → j < k → entry m i j = Some (f i j)) →
  m = (λ i, (λ j, f i j) <$> seq 0 k) <$> seq 0 k.
Proof.
  intros Hlen Hrows Hentry. apply list_eq. intros i.
  rewrite list_lookup_fmap.
  destruct (decide (i < k)) as [Hi|Hi].
  - rewrite lookup_seq_lt by done. cbn.
    destruct (lookup_lt_is_Some_2 m i ltac:(lia)) as [row Hrow].
    rewrite Hrow. f_equal. apply list_eq. intros j.
    rewrite list_lookup_fmap.
    assert (length row = k) as Hrowlen.
    { rewrite Forall_forall in Hrows. by eapply Hrows, list_elem_of_lookup_2. }
    destruct (decide (j < k)) as [Hj|Hj].
    + rewrite lookup_seq_lt by done. cbn.
      specialize (Hentry i j Hi Hj). unfold entry in Hentry.
      by rewrite Hrow in Hentry.
    + rewrite lookup_seq_ge by lia. cbn. apply lookup_ge_None_2. lia.
  - rewrite lookup_seq_ge by lia. cbn. apply lookup_ge_None_2. lia.
Qed.

Lemma count_pairs_nil (y_pred : list nat) (i j : nat) :
  count_pairs [] y_pred i j = 0.
Proof. reflexivity. Qed.

Lemma count_pairs_cons (t p : nat) (y_true y_pred : list nat) (i j : nat) :
  count_pairs (t :: y_true) (p :: y_pred) i j
  = (if decide ((t, p) = (i, j)) then 1 else 0) + count_pairs y_true y_pred i j.
Proof.
  unfold count_pairs. cbn [zip_with]. rewrite filter_cons.
  by destruct (decide ((t, p) = (i, j))).
Qed.

Lemma filter_ext_elem {A} (P Q : A → Prop) `{∀ x, Decision (P x)}
    `{∀ x, Decision (Q x)} (l : list A) :
  (∀ x, x ∈ l → P x ↔ Q x) → filter P l = filter Q l.
Proof.
  induction l as [|x l IH]; intros Hext; [done|].
  rewrite !filter_cons.
  rewrite IH by (intros y Hy; apply Hext; by right).
  destruct (decide (P x)) as [HP|HP], (decide (Q x)) as [HQ|HQ];
    try done; exfalso; apply (Hext x) in HP || apply (Hext x) in HQ;
    done || left.
Qed.

Section Margins.
Implicit Types (y_true y_pred : list nat).

(** Row [i] sums to the samples of true class [i]. *)
Lemma row_total (k : nat) y_true y_pred (i : nat) :
  length y_pred = length y_true → Forall (λ c, c < k) y_pred →
  sum_list_with (λ j, count_pairs y_true y_pred i j) (seq 0 k)
  = length (filter (λ t, t = i) y_true).
Proof.
  revert y_pred. induction y_true as [|t y_true IH]; intros y_pred Hlen Hp.
  - cbn. apply sum_list_with_zero.
  - destruct y_pred as [|p y_pred]; [done|]. inversion_clear Hp as [|? ? Hpk Hp'].
    rewrite (sum_list_with_ext _ _ _
               (λ j _, count_pairs_cons t p y_true y_pred i j)).
    rewrite sum_list_with_plus, IH by (done || (cbn in Hlen; lia)).
    rewrite filter_cons.
    rewrite (sum_list_with_ext _
      (λ j, if bool_decide (Some p = Some j)
            then (if decide (t = i) then 1 else 0) else 0)).
    + rewrite (sum_indicator _ _ 0 k p) by (done || lia).
      by destruct (decide (t = i)).
    + intros j _. destruct (decide ((t, p) = (i, j))) as [[= -> ->]|Hne].
      * by rewrite bool_decide_eq_true_2, decide_True.
      * destruct (decide (p = j)) as [->|Hpj].
        -- rewrite bool_decide_eq_true_2 by done.
           rewrite decide_False; [done|]. by intros ->.
        -- rewrite bool_decide_eq_false_2; [done|]. by intros [= ->].
Qed.

(** Column [j] sums to the samples predicted as class [j]. *)
Lemma column_total (k : nat) y_true y_pred (j : nat) :
  length y_pred = length y_true → Forall (λ c, c < k) y_true →
  sum_list_with (λ i, count_pairs y_true y_pred i j) (seq 0 k)
  = length (filter (λ p, p = j) y_pred).
Proof.
  revert y_pred. induction y_true as [|t y_true IH]; intros y_pred Hlen Ht.
  - destruct y_pred; [|done]. cbn. apply sum_list_with_zero.
  - destruct y_pred as [|p y_pred]; [done|]. inversion_clear Ht as [|? ? Htk Ht'].
    rewrite (sum_list_with_ext _ _ _
               (λ i _, count_pairs_cons t p y_true y_pred i j)).
    rewrite sum_list_with_plus, IH by (done || (cbn in Hlen; lia)).
    rewrite filter_cons.
    rewrite (sum_list_with_ext _
      (λ i, if bool_decide (Some t = Some i)
            then (if decide (p = j) then 1 else 0) else 0)).
    + rewrite (sum_indicator _ _ 0 k t) by (done || lia).
      by destruct (decide (p = j)).
    + intros i _. destruct (decide ((t, p) = (i, j))) as [[= -> ->]|Hne].
      * by rewrite bool_decide_eq_true_2, decide_True.
      * destruct (decide (t = i)) as [->|Hti].
        -- rewrite bool_decide_eq_true_2 by done.
           rewrite decide_False; [done|]. by intros ->.
        -- rewrite bool_decide_eq_false_2; [done|]. by intros [= ->].
Qed.

(** The diagonal sums to the samples that are predicted right. *)
Lemma diagonal_total (k : nat) y_true y_pred :
  Forall (λ c, c < k) y_true →
  sum_list_with (λ i, count_pairs y_true y_pred i i) (seq 0 k)
  = length (filter (λ tp, tp.1 = tp.2) (zip y_true y_pred)).
Proof.
  revert y_pred. induction y_true as [|t y_true IH]; intros y_pred Ht.
  - cbn. apply sum_list_with_zero.
  - destruct y_pred as [|p y_pred]; [cbn; apply sum_list_with_zero|].
    inversion_clear Ht as [|? ? Htk Ht'].
    rewrite (sum_list_with_ext _ _ _
               (λ i _, count_pairs_cons t p y_true y_pred i i)).
    rewrite sum_list_with_plus, IH by done.
    cbn [zip_with]. rewrite filter_cons. cbn [fst snd].
    rewrite (sum_list_with_ext _
      (λ i, if bool_decide (Some t = Some i)
            then (if decide (t = p) then 1 else 0) else 0)).
    + rewrite (sum_indicator _ _ 0 k t) by (done || lia).
      by destruct (decide (t = p)).
    + intros i _. destruct (decide ((t, p) = (i, i))) as [[= -> ->]|Hne].
      * by rewrite bool_decide_eq_true_2, decide_True.
      * destruct (decide (t = i)) as [->|Hti].
        -- rewrite bool_decide_eq_true_2 by done.
           rewrite decide_False; [done|]. by intros ->.
        -- rewrite bool_decide_eq_false_2; [done|]. by intros [= ->].
Qed.

(** The wrongly predicted positions are as many as the unequal pairs. *)
Lemma misclassified_pairs y_pred y_true :
  length y_pred = length y_true →
  length (misclassified y_pred y_true)
  = length (filter (λ tp, tp.1 ≠ tp.2) (zip y_true y_pred)).
Proof.
  revert y_true. induction y_pred as [|p y_pred IH] using rev_ind;
    intros y_true Hlen.
  - destruct y_true; [done|discriminate].
  - destruct y_true as [|t y_true _] using rev_ind.
    { rewrite length_app in Hlen. cbn in Hlen. lia. }
    rewrite !length_app in Hlen. cbn in Hlen.
    assert (length y_pred = length y_true) as Hlen' by lia.
    unfold misclassified. rewrite length_app. cbn [length].
    rewrite Nat.add_comm. cbn [Nat.add]. rewrite seq_S, filter_app, length_app.
    rewrite zip_with_app by done. rewrite filter_app, length_app.
    f_equal.
    + rewrite <- (IH y_true Hlen'). unfold misclassified. f_equal.
      apply filter_ext_elem. intros idx Hidx. apply elem_of_seq in Hidx.
      rewrite !lookup_app_l by lia. done.
    + cbn [Nat.add zip_with]. rewrite !filter_cons, !filter_nil.
      rewrite lookup_app_r, Nat.sub_diag by lia.
      rewrite Hlen', lookup_app_r, Nat.sub_diag by lia. cbn.
      destruct (decide (t = p)) as [->|Hne].
      * rewrite decide_False by (by intros []).
        by rewrite decide_False by (by intros []).
      * rewrite decide_True by congruence. by rewrite decide_True.
Qed.
End Margins.

Lemma filter_split_length {A} (P : A → Prop) `{∀ x, Decision (P x)}
    (l : list A) :
  length (filter P l) + length (filter (λ x, ¬ P x) l) = length l.
Proof.
  rewrite <- length_app. apply Permutation_length, filter_app_complement.
Qed.

Lemma confusion_frame_table (labels : list string) (y_test y_pred : list nat) :
  NoDup labels → 0 < length labels → length y_pred = length y_test →
  Forall (λ c, c < length labels) y_test →
  Forall (λ c, c < length labels) y_pred →
  ∃ df, confusion_frame (make_label_index labels) y_test y_pred = ok df
        ∧ pandas.data df
          = (λ i, (λ j, count_pairs y_test y_pred i j)
                    <$> seq 0 (length labels)) <$> seq 0 (length labels).
Proof.
  intros Hnd Hk Hlen Ht Hp.
  destruct (confusion_frame_ok labels y_test y_pred Hnd Hk Hlen Ht Hp)
    as (df & Hdf & _ & _ & Hrows & Hwidth & _ & Hentry).
  exists df. split; [done|]. by apply table_of_entries.
Qed.

(** X10: in the confusion matrix, row [i] sums to the number of test samples
    whose true class is [i], and column [j] to the number of test
    samples predicted as class [j]. *)
Theorem confusion_matrix_margins (labels : list string)
    (y_test y_pred : list nat) :
  NoDup labels → 0 < length labels → length y_pred = length y_test →
  Forall (λ c, c < length labels) y_test →
  Forall (λ c, c < length labels) y_pred →
  ∃ df,
    confusion_frame (make_label_index labels) y_test y_pred = ok df
    ∧ (∀ i row, pandas.data df !! i = Some row →
         sum_list row = length (filter (λ t, t = i) y_test))
    ∧ (∀ j, j < length labels →
         sum_list (column (pandas.data df) j)
         = length (filter (λ p, p = j) y_pred)).
Proof.
  intros Hnd Hk Hlen Ht Hp.
  destruct (confusion_frame_table labels y_test y_pred Hnd Hk Hlen Ht Hp)
    as (df & Hdf & Hdata).
  exists df. split; [done|]. rewrite Hdata. split.
  - intros i row Hrow. rewrite list_lookup_fmap in Hrow.
    destruct (seq 0 (length labels) !! i) as [i'|] eqn:Hi; [|done].
    apply lookup_seq in Hi as [-> _]. injection Hrow as <-.
    rewrite sum_list_fmap. by apply row_total.
  - intros j Hj. unfold column. rewrite <- list_fmap_compose, sum_list_fmap.
    rewrite <- (column_total (length labels) y_test y_pred j Hlen Ht).
    apply sum_list_with_ext. intros i _. cbn.
    by rewrite list_lookup_fmap, lookup_seq_lt.
Qed.

Lemma confusion_matrix_margins_witness :
  ∃ df,
    confusion_frame (make_label_index ["catA"; "catB"]) [0; 1; 1; 0] [0; 1; 0; 0]
    = ok df
    ∧ (∀ i row, pandas.data df !! i = Some row →
         sum_list row = length (filter (λ t, t = i) [0; 1; 1; 0]))
    ∧ (∀ j, j < 2 →
         sum_list (column (pandas.data df) j)
         = length (filter (λ p, p = j) [0; 1; 0; 0])).
Proof.
  apply (confusion_matrix_margins ["catA"; "catB"] [0; 1; 1; 0] [0; 1; 0; 0]).
  - apply NoDup_cons. split; [|apply NoDup_singleton].
    by rewrite list_elem_of_singleton.
  - cbn. lia.
  - reflexivity.
  - repeat constructor.
  - repeat constructor.
Defined.

(** X11: the confusion matrix and the list of wrongly classified pictures
    account for every test sample once: the diagonal of the matrix and
    the number of wrongly classified positions add up to the size of the
    test set. *)
Theorem diagonal_and_wrong_pictures (labels : list string)
    (y_test y_pred : list nat) :
  NoDup labels → 0 < length labels → length y_pred = length y_test →
  Forall (λ c, c < length labels) y_test →
  Forall (λ c, c < length labels) y_pred →
  ∃ df wrong,
    confusion_frame (make_label_index labels) y_test y_pred = ok df
    ∧ wrong_pictures_idx y_pred y_test = ok wrong
    ∧ trace (pandas.data df) + length wrong = length y_test
    ∧ (wrong = [] ↔ y_pred = y_test).
Proof.
  intros Hnd Hk Hlen Ht Hp.
  destruct (confusion_frame_table labels y_test y_pred Hnd Hk Hlen Ht Hp)
    as (df & Hdf & Hdata).
  exists df, (misclassified y_pred y_test).
  split; [done|]. split; [by apply wrong_pictures_idx_ok|]. split.
  - assert (trace (pandas.data df)
            = length (filter (λ tp, tp.1 = tp.2) (zip y_test y_pred)))
      as Htrace.
    { rewrite <- (diagonal_total (length labels) y_test y_pred Ht).
      unfold trace. rewrite Hdata, length_fmap, length_seq.
      apply sum_list_with_ext. intros i Hi. apply elem_of_seq in Hi.
      unfold entry. rewrite list_lookup_fmap, lookup_seq_lt by lia. cbn.
      by rewrite list_lookup_fmap, lookup_seq_lt by lia. }
    pose proof (filter_split_length (λ tp : nat * nat, tp.1 = tp.2)
                  (zip y_test y_pred)) as Hsplit.
    rewrite length_zip_with, Hlen, Nat.min_id in Hsplit.
    rewrite Htrace, misclassified_pairs by done. exact Hsplit.
  - unfold misclassified. split.
    + intros Hnil. apply list_eq. intros idx.
      destruct (decide (idx < length y_pred)) as [Hidx|Hidx].
      * destruct (decide (y_pred !! idx = y_test !! idx)) as [|Hne]; [done|].
        exfalso. eapply (filter_nil_not_elem_of _ _ idx Hnil Hne).
        apply elem_of_seq. lia.
      * rewrite !lookup_ge_None_2 by lia. done.
    + intros ->. induction (seq 0 (length y_test)) as [|idx l IH]; [done|].
      rewrite filter_cons, decide_False by (by intros []). done.
Qed.

Lemma diagonal_and_wrong_pictures_witness :
  ∃ df wrong,
    confusion_frame (make_label_index ["catA"; "catB"]) [0; 1; 1; 0] [0; 1; 0; 0]
    = ok df
    ∧ wrong_pictures_idx [0; 1; 0; 0] [0; 1; 1; 0] = ok wrong
    ∧ trace (pandas.data df) + length wrong = 4
    ∧ (wrong = [] ↔ [0; 1; 0; 0] = [0; 1; 1; 0]).
Proof.
  apply (diagonal_and_wrong_pictures ["catA"; "catB"] [0; 1; 1; 0]
           [0; 1; 0; 0]).
  - apply NoDup_cons. split; [|apply NoDup_singleton].
    by rewrite list_elem_of_singleton.
  - cbn. lia.
  - reflexivity.
  - repeat constructor.
  - repeat constructor.
Defined.

(** ** The tags of the reported pictures *)

(** X12: two reported pictures with the same true class and the same
    predicted class are written under the same tag and the same step:
    the tag tells the two classes and nothing about the picture. *)
Theorem same_classes_same_tag {U : UnicodeData} {Image : Type}
    (labels : list string)
    (X_test : list Image) (y_test y_pred : list nat) :
  NoDup labels → length X_test = length y_test →
  length y_pred = length y_test →
  Forall (λ c, c < length labels) y_test →
  Forall (λ c, c < length labels) y_pred →
  ∃ summaries,
    report_wrong_pictures (make_label_index labels) X_test y_test y_pred
    = ok summaries
    ∧ ∀ a b ia ib sa sb,
        take 20 (misclassified y_pred y_test) !! a = Some ia →
        take 20 (misclassified y_pred y_test) !! b = Some ib →
        summaries !! a = Some sa → summaries !! b = Some sb →
        y_test !! ia = y_test !! ib → y_pred !! ia = y_pred !! ib →
        tag sa = tag sb ∧ step sa = step sb.
Proof.
  intros Hnd HX Hlen Ht Hp.
  destruct (report_wrong_pictures_ok labels X_test y_test y_pred Hnd HX Hlen
              Ht Hp) as (summaries & Hsum & Hrep).
  exists summaries. split; [done|].
  intros a b ia ib sa sb Hia Hib Hsa Hsb Htest Hpred.
  destruct (Forall2_lookup_lr _ _ _ _ _ _ Hrep Hia Hsa)
    as (xa & ta & pa & lta & lpa & _ & Hta & Hpa & _ & Hlta & Hlpa & Htag_a
        & _ & Hstep_a & _).
  destruct (Forall2_lookup_lr _ _ _ _ _ _ Hrep Hib Hsb)
    as (xb & tb & pb & ltb & lpb & _ & Htb & Hpb & _ & Hltb & Hlpb & Htag_b
        & _ & Hstep_b & _).
  rewrite Hta, Htb in Htest. injection Htest as ->.
  rewrite Hpa, Hpb in Hpred. injection Hpred as ->.
  rewrite Hlta in Hltb. injection Hltb as ->.
  rewrite Hlpa in Hlpb. injection Hlpb as ->.
  split; congruence.
Qed.

Lemma same_classes_same_tag_witness :
  ∃ summaries,
    report_wrong_pictures (U := ascii_table)
                          (make_label_index ["catA"; "catB"])
                          ["1.png"; "2.png"; "3.png"] [0; 1; 0] [1; 1; 1]
    = ok summaries
    ∧ tag <$> summaries = ["true ['catA']: predicted ['catB']";
                           "true ['catA']: predicted ['catB']"].
Proof.
  destruct (same_classes_same_tag (U := ascii_table) ["catA"; "catB"]
              ["1.png"; "2.png"; "3.png"] [0; 1; 0] [1; 1; 1])
    as (summaries & Hsum & _).
  - apply NoDup_cons. split; [|apply NoDup_singleton].
    by rewrite list_elem_of_singleton.
  - reflexivity.
  - reflexivity.
  - repeat constructor.
  - repeat constructor.
  - exists summaries. split; [exact Hsum|].
    vm_compute in Hsum. by injection Hsum as <-.
Defined.

(** ** The bounds of the comparison on lines 133-135 *)

Lemma wrong_among_within (y_pred y_test idxs : list nat) :
  length y_pred ≤ length y_test →
  Forall (λ idx, idx < length y_pred) idxs →
  wrong_among y_pred y_test idxs
  = ok (filter (λ idx, y_pred !! idx ≠ y_test !! idx) idxs).
Proof.
  intros Hlen. induction 1 as [|idx idxs Hidx _ IH]; [done|].
  destruct (lookup_lt_is_Some_2 y_pred idx Hidx) as [p Hp].
  destruct (lookup_lt_is_Some_2 y_test idx ltac:(lia)) as [t Ht].
  cbn [wrong_among]. unfold np.item. rewrite Hp, Ht, IH, filter_cons.
  destruct (decide (p = t)) as [->|Hne].
  - rewrite decide_False by (rewrite Hp, Ht; by intros []).
    cbn. by rewrite Nat.eqb_refl.
  - rewrite decide_True by (rewrite Hp, Ht; congruence).
    cbn. by rewrite (proj2 (Nat.eqb_neq p t) Hne).
Qed.

Lemma wrong_among_beyond (y_pred y_test idxs : list nat) :
  Forall (λ idx, idx < length y_pred) idxs →
  Exists (λ idx, length y_test ≤ idx) idxs →
  wrong_among y_pred y_test idxs = raise IndexError.
Proof.
  induction 1 as [|idx idxs Hidx Hrest IH]; intros Hex.
  - by apply Exists_nil in Hex.
  - destruct (lookup_lt_is_Some_2 y_pred idx Hidx) as [p Hp].
    cbn [wrong_among]. unfold np.item. rewrite Hp. cbn.
    destruct (y_test !! idx) as [t|] eqn:Ht; [|done]. cbn.
    apply Exists_cons in Hex as [Hge|Hex].
    + apply lookup_lt_Some in Ht. lia.
    + by rewrite IH.
Qed.

(** X13: the comparison ranges over the predictions: with at least as many
    true labels as predictions it returns the positions, all below the
    number of predictions, at which the two differ, and true labels
    beyond the predictions are not looked at; with fewer true labels
    than predictions it raises [IndexError]. *)
Theorem wrong_pictures_idx_bounds (y_pred y_test : list nat) :
  (length y_pred ≤ length y_test →
   wrong_pictures_idx y_pred y_test = ok (misclassified y_pred y_test)
   ∧ Forall (λ idx, idx < length y_pred) (misclassified y_pred y_test)
   ∧ wrong_pictures_idx y_pred y_test
     = wrong_pictures_idx y_pred (take (length y_pred) y_test))
  ∧ (length y_test < length y_pred →
     wrong_pictures_idx y_pred y_test = raise IndexError).
Proof.
  assert (Forall (λ idx, idx < length y_pred) (seq 0 (length y_pred)))
    as Hseq.
  { apply Forall_forall. intros idx Hidx. apply elem_of_seq in Hidx. lia. }
  split.
  - intros Hlen. unfold wrong_pictures_idx, misclassified.
    rewrite !wrong_among_within by (done || (rewrite length_take; lia)).
    split; [done|]. split.
    + apply Forall_forall. intros idx [_ Hidx]%list_elem_of_filter.
      apply elem_of_seq in Hidx. lia.
    + f_equal. apply filter_ext_elem. intros idx Hidx.
      apply elem_of_seq in Hidx. rewrite lookup_take_lt by lia. done.
  - intros Hlen. apply wrong_among_beyond; [done|].
    apply Exists_exists. exists (length y_test).
    split; [|done]. apply elem_of_seq. lia.
Qed.

Lemma wrong_pictures_idx_bounds_witness :
  wrong_pictures_idx [1; 0] [0; 0; 1] = ok [0]
  ∧ wrong_pictures_idx [1; 0; 1] [0; 0] = raise IndexError.
Proof.
  split.
  - apply (proj1 (proj1 (wrong_pictures_idx_bounds [1; 0] [0; 0; 1])
                        ltac:(cbn; lia))).
  - apply (proj2 (wrong_pictures_idx_bounds [1; 0; 1] [0; 0])). cbn. lia.
Defined.

(** ** The network and the labels *)

(** X14: the layers that [build_model] stacks fit together on the 28 x 28 x 1
    images of the loader, for every number of classes, and end in one
    score per class; built for the size of the label index, as on line
    111, the network has one output for each distinct label, and every
    integer label of the run is the position of one of its outputs. *)
Theorem network_fits_the_labels :
  (∀ num_class : nat,
     keras.shapes (keras.layers (build_model num_class))
                  (keras.input_shape (build_model num_class))
     = ok [[26; 26; 32]; [24; 24; 32]; [12; 12; 32]; [12; 12; 32];
           [10; 10; 32]; [8; 8; 32]; [4; 4; 32]; [4; 4; 32];
           [512]; [64]; [64]; [num_class]])
  ∧ ∀ (input_type : string) (paths all_labels labels : list string),
      extract_labels input_type paths = ok all_labels →
      set_listing all_labels labels →
      ∃ label_index codes,
        label_stage input_type paths labels = ok (label_index, codes)
        ∧ keras.model_output_shape (build_model (PyDict.len label_index))
          = ok [num_classes all_labels]
        ∧ Forall (λ c, c < num_classes all_labels) codes.
Proof.
  split; [reflexivity|].
  intros input_type paths all_labels labels Hext Hlist.
  pose proof (set_listing_NoDup _ _ Hlist) as Hnd.
  pose proof (set_listing_length _ _ Hlist) as Hlen.
  destruct (label_stage_ok _ _ _ _ Hext Hlist) as (codes & Hs & HF).
  exists (make_label_index labels), codes. split; [done|]. split.
  - rewrite len_label_index, Hlen by done. reflexivity.
  - rewrite <- Hlen. eapply Forall2_Forall_r; [exact HF|].
    apply Forall_forall. intros l _ c Hc. by eapply lookup_lt_Some.
Qed.

Lemma network_fits_the_labels_witness :
  ∃ label_index codes,
    label_stage "mnist" ["/i/catA/1.png"; "/i/catB/2.png"; "/i/catA/3.png"]
                ["catB"; "catA"]
    = ok (label_index, codes)
    ∧ keras.model_output_shape (build_model (PyDict.len label_index))
      = ok [num_classes ["catA"; "catB"; "catA"]]
    ∧ Forall (λ c, c < num_classes ["catA"; "catB"; "catA"]) codes.
Proof.
  apply (proj2 network_fits_the_labels "mnist"
           ["/i/catA/1.png"; "/i/catB/2.png"; "/i/catA/3.png"]
           ["catA"; "catB"; "catA"] ["catB"; "catA"]).
  - reflexivity.
  - unfold set_listing. vm_compute. apply perm_swap.
Defined.
